(** * Valve control: relays driven from MIDI note-on messages

    Shallow embedding of [valve_control/relay_controller.py].

    - Python exceptions are modelled by an outcome type and a state monad
      over the GPIO world: a raised exception keeps the side effects that
      happened before it.
    - The sysfs GPIO tree ([/sys/class/gpio]) is a finite map from channel
      numbers to pins; every successful write is recorded in a journal.
    - The capture process ([amidi -d]) is the list of characters it still
      has to print on its standard output. *)

From Stdlib Require Import ZArith Ascii String List Lia Bool.
From stdpp Require Import base option list gmap.

Local Open Scope Z_scope.

(** ** Python values and control flow *)

Abbreviation bytes := (list ascii).

Definition b (s : string) : bytes := list_ascii_of_string s.

Inductive exn := ValueError | OSError | AttributeError | IndexError.

Inductive outcome (A : Type) :=
| Return (a : A)
| Raise (e : exn).
Arguments Return {A} a.
Arguments Raise {A} e.

Definition py (S A : Type) : Type := S -> outcome A * S.

Definition ret {S A} (a : A) : py S A := fun w => (Return a, w).

Definition raise {S A} (e : exn) : py S A := fun w => (Raise e, w).

Definition bind {S A B} (m : py S A) (k : A -> py S B) : py S B :=
  fun w =>
    match m w with
    | (Return a, w') => k a w'
    | (Raise e, w') => (Raise e, w')
    end.

(** [try: m except Exception: pass] *)
Definition swallow {S} (m : py S unit) : py S unit :=
  fun w => (Return tt, snd (m w)).

Notation "'let*' x := m 'in' k" := (bind m (fun x => k))
  (at level 10, x name, m at level 100, k at level 200).
Notation "m ;; k" := (bind m (fun _ => k))
  (at level 100, k at level 200, right associativity).

(** ** The sysfs GPIO tree *)

Record gpio := Gpio {
  exported : bool;    (* the directory gpioN exists *)
  permitted : bool;   (* its files can be opened by this process *)
  direction : bytes;  (* content of gpioN/direction *)
  level : bytes       (* content of gpioN/value *)
}.

Inductive event :=
| EvExport (channel : Z)
| EvUnexport (channel : Z)
| EvDirection (channel : Z) (raw : bytes)
| EvValue (channel : Z) (raw : bytes).

Record world := World {
  gpios : gmap Z gpio;
  journal : list event   (* most recent write first *)
}.

Definition commit (channel : Z) (g : gpio) (ev : event) (w : world) : world :=
  World (<[channel := g]> (gpios w)) (ev :: journal w).

(** Writing a channel number to [/sys/class/gpio/export]. *)
Definition write_export (channel : Z) : py world unit :=
  fun w =>
    match gpios w !! channel with
    | Some g =>
        if exported g then (Raise OSError, w)
        else (Return tt,
              commit channel (Gpio true (permitted g) (direction g) (level g))
                     (EvExport channel) w)
    | None => (Raise OSError, w)
    end.

(** Writing a channel number to [/sys/class/gpio/unexport]. *)
Definition write_unexport (channel : Z) : py world unit :=
  fun w =>
    match gpios w !! channel with
    | Some g =>
        if exported g
        then (Return tt,
              commit channel (Gpio false (permitted g) (direction g) (level g))
                     (EvUnexport channel) w)
        else (Raise OSError, w)
    | None => (Raise OSError, w)
    end.

(** [open(path)] on a file below [gpioN/]. *)
Definition open_gpio (channel : Z) : py world gpio :=
  fun w =>
    match gpios w !! channel with
    | Some g => if exported g && permitted g then (Return g, w)
                else (Raise OSError, w)
    | None => (Raise OSError, w)
    end.

Definition read_direction (channel : Z) : py world bytes :=
  let* g := open_gpio channel in ret (direction g).

Definition write_direction (channel : Z) (raw : bytes) : py world unit :=
  let* g := open_gpio channel in
  fun w => (Return tt,
            commit channel (Gpio (exported g) (permitted g) raw (level g))
                   (EvDirection channel raw) w).

Definition read_value (channel : Z) : py world bytes :=
  let* g := open_gpio channel in ret (level g).

Definition write_value (channel : Z) (raw : bytes) : py world unit :=
  let* g := open_gpio channel in
  fun w => (Return tt,
            commit channel (Gpio (exported g) (permitted g) (direction g) raw)
                   (EvValue channel raw) w).

(** ** Bytes helpers: [bytes.rstrip()], [bytes.split()] and [int(x, base=16)] *)

(** ASCII whitespace as [bytes.split], [bytes.rstrip] and [int] see it:
    space, tab, line feed, vertical tab, form feed, carriage return. *)
Definition Py_ISSPACE (c : ascii) : bool :=
  let n := nat_of_ascii c in
  ((n =? 32) || ((9 <=? n) && (n <=? 13)))%nat.

Fixpoint lstrip (s : bytes) : bytes :=
  match s with
  | c :: s' => if Py_ISSPACE c then lstrip s' else s
  | [] => []
  end.

Definition rstrip (s : bytes) : bytes := rev (lstrip (rev s)).

Definition bytes_eqb (x y : bytes) : bool := bool_decide (x = y).

(** [bytes.split()] without arguments: the maximal runs of characters that
    are not whitespace; [token] is the run being read. *)
Fixpoint split_from (token : bytes) (s : bytes) : list bytes :=
  match s with
  | [] => match token with [] => [] | _ => [token] end
  | c :: s' =>
      if Py_ISSPACE c
      then match token with
           | [] => split_from [] s'
           | _ => token :: split_from [] s'
           end
      else split_from (token ++ [c]) s'
  end.

Definition split (s : bytes) : list bytes := split_from [] s.

(** The digit table of CPython's integer parser: 37 marks a character that
    is a digit in no base. *)
Definition _PyLong_DigitValue (c : ascii) : Z :=
  let n := Z.of_nat (nat_of_ascii c) in
  if (48 <=? n) && (n <=? 57) then n - 48
  else if (97 <=? n) && (n <=? 122) then n - 87
  else if (65 <=? n) && (n <=? 90) then n - 55
  else 37.

Definition is_underscore (c : ascii) : bool := Ascii.eqb c "_".

(** The digit scan of [int]: hexadecimal digits, single underscores between
    them. [prev] tells whether the previous character was an underscore.
    Returns the value and what follows the literal. *)
Fixpoint scan_digits (prev : bool) (acc : Z) (s : bytes) : option (Z * bytes) :=
  match s with
  | [] => if prev then None else Some (acc, [])
  | c :: s' =>
      if is_underscore c
      then if prev then None else scan_digits true acc s'
      else if _PyLong_DigitValue c <? 16
           then scan_digits false (acc * 16 + _PyLong_DigitValue c) s'
           else if prev then None else Some (acc, s)
  end.

(** [int(x, base=16)] for a bytes object [x]: optional whitespace, sign and
    [0x] prefix (one underscore may follow the prefix), at least one digit,
    optional trailing whitespace. *)
Definition int16 (x : bytes) : outcome Z :=
  let s := lstrip x in
  let '(sign, s) :=
    match s with
    | c :: t => if Ascii.eqb c "+" then (1, t)
                else if Ascii.eqb c "-" then (-1, t) else (1, s)
    | [] => (1, s)
    end in
  let s :=
    match s with
    | c0 :: c1 :: t =>
        if Ascii.eqb c0 "0" && (Ascii.eqb c1 "x" || Ascii.eqb c1 "X")
        then match t with
             | c2 :: t' => if is_underscore c2 then t' else t
             | [] => t
             end
        else s
    | _ => s
    end in
  match s with
  | [] => Raise ValueError
  | c :: _ =>
      if is_underscore c then Raise ValueError
      else match scan_digits false 0 s with
           | Some (v, rest) =>
               if bool_decide (rest = s) then Raise ValueError
               else match lstrip rest with
                    | [] => Return (sign * v)
                    | _ => Raise ValueError
                    end
           | None => Raise ValueError
           end
  end.

(** ** class Value(Enum) *)

Inductive Value := ON | OFF.

Definition negate (v : Value) : Value :=
  match v with ON => OFF | OFF => ON end.

(** ** class Relay *)

Record Relay := MkRelay {
  _channel : Z;
  _original_direction : bytes
}.

(** The methods read nothing of the object but [self._channel]: they take
    the channel. The paths [gpioN/value] and [gpioN/direction] are the
    fields [level] and [direction] of pin [N]. *)
Module Relay.

Definition DIRECTION : bytes := b "out".
Definition _ON_VALUE : bytes := b "0".
Definition _OFF_VALUE : bytes := b "1".

Definition _raw_value_to_value {S} (raw_value : bytes) : py S Value :=
  if bytes_eqb (rstrip raw_value) _ON_VALUE then ret ON
  else if bytes_eqb (rstrip raw_value) _OFF_VALUE then ret OFF
  else raise ValueError.

Definition _value_to_raw_value (value : Value) : bytes :=
  match value with
  | ON => _ON_VALUE
  | OFF => _OFF_VALUE
  end.

Definition _set_raw_value (channel : Z) (value : bytes) : py world bytes :=
  let* previous_value := read_value channel in
  write_value channel value ;;
  ret previous_value.

(** The [value] property: getter and setter. *)
Definition value (channel : Z) : py world Value :=
  let* raw := read_value channel in _raw_value_to_value raw.

Definition set_value (channel : Z) (v : Value) : py world unit :=
  _set_raw_value channel (_value_to_raw_value v) ;; ret tt.

Definition toggle (channel : Z) : py world Value :=
  let* v := value channel in
  match v with
  | ON => set_value channel OFF
  | OFF => set_value channel ON
  end ;;
  value channel.

Definition _set_up (channel : Z) : py world bytes :=
  swallow (write_export channel) ;;
  let* original_direction := read_direction channel in
  write_direction channel DIRECTION ;;
  set_value channel OFF ;;
  ret original_direction.

Definition _shut_down (channel : Z) : py world unit :=
  set_value channel OFF ;;
  swallow (write_unexport channel).

Definition __init__ (channel : Z) : py world Relay :=
  let* original_direction := _set_up channel in
  ret (MkRelay channel original_direction).

(** An exception that escapes a finaliser is reported and dropped. *)
Definition __del__ (self : Relay) : py world unit :=
  swallow (_shut_down (_channel self)).

End Relay.

(** ** class RelayController *)

Definition RELAY_1_GPIO_PIN : Z := 26.
Definition RELAY_2_GPIO_PIN : Z := 20.
Definition RELAY_3_GPIO_PIN : Z := 21.

Module RelayController.

(** Objects that lose their last reference are finalised at once. *)
Fixpoint finalize (objects : list Relay) : py world unit :=
  match objects with
  | [] => ret tt
  | r :: rest => Relay.__del__ r ;; finalize rest
  end.

(** The list display [[Relay(..), Relay(..), Relay(..)]]: the relays built
    so far sit on the operand stack, last built on top. When a constructor
    raises, the stack is popped while the exception unwinds and every
    relay on it is finalised. The object whose constructor raised is kept
    alive by the traceback and is not finalised here. *)
Fixpoint build (channels : list Z) (stack : list Relay)
  : py world (list Relay) :=
  match channels with
  | [] => ret (rev stack)
  | c :: rest =>
      fun w =>
        match Relay.__init__ c w with
        | (Return r, w') => build rest (r :: stack) w'
        | (Raise e, w') => (Raise e, snd (finalize stack w'))
        end
  end.

Definition __init__ : py world (list Relay) :=
  build [RELAY_1_GPIO_PIN; RELAY_2_GPIO_PIN; RELAY_3_GPIO_PIN] [].

End RelayController.

(** ** The capture process [amidi -p port -d] *)

Record capture := Capture {
  pending : bytes;   (* what the process still prints before it closes *)
  lingering : nat    (* polls at end of stream that find it still alive *)
}.

Definition newline : ascii := "010".

(** [process.stdout.readline()] on the unbuffered pipe: characters are read
    up to and including the first newline, or up to the end of the stream. *)
Fixpoint readline (s : bytes) : bytes * bytes :=
  match s with
  | [] => ([], [])
  | c :: s' =>
      if Ascii.eqb c newline then ([c], s')
      else let '(line, rest) := readline s' in (c :: line, rest)
  end.

(** ** class MIDIRelayController(RelayController) *)

Record MIDIRelayController := MkController {
  relays : list Relay;
  port : string;
  base_value : Z;
  channel : Z
}.

Definition truthy (n : Z) : bool := negb (n =? 0).

Module MIDIRelayController.

Definition CONTROL_MASK : Z := 0xF0.
Definition CONTROL_NOTE_OFF : Z := 0x80.
Definition CONTROL_NOTE_ON : Z := 0x90.
Definition CHANNEL_MASK : Z := 0x0F.

Definition NOTE_TO_VALUE : gmap Z Z :=
  list_to_map [(60, 1); (61, 2); (62, 3); (63, 4); (64, 5); (65, 6); (66, 7)].

(** The port is given; discovery through [amidi -l] is outside the model. *)
Definition __init__ (port : string) (base_value channel : Z)
  : py world MIDIRelayController :=
  let* relays := RelayController.__init__ in
  ret (MkController relays port base_value channel).

(** [self.relays[i].value = v] *)
Definition set_relay (self : MIDIRelayController) (i : nat) (v : Value)
  : py world unit :=
  match relays self !! i with
  | Some r => Relay.set_value (_channel r) v
  | None => raise IndexError
  end.

Definition set_value (self : MIDIRelayController) (value : Z)
  : py world unit :=
  if (value <? 0) || (value >? 7) then raise ValueError
  else
    set_relay self 0 (if truthy (Z.land value 0x01) then ON else OFF) ;;
    set_relay self 1 (if truthy (Z.land value 0x02) then ON else OFF) ;;
    set_relay self 2 (if truthy (Z.land value 0x04) then ON else OFF).

Definition _set_note_on (self : MIDIRelayController) (channel_ : Z)
  (values : list Z) : py world unit :=
  if negb (channel_ =? channel self) then ret tt
  else match values with
       | [] => ret tt
       | note :: _ =>
           set_value self (default (base_value self) (NOTE_TO_VALUE !! note))
       end.

(** [[int(b"0x" + data, base=16) for data in byte_array]] *)
Fixpoint midi_hex (byte_array : list bytes) : outcome (list Z) :=
  match byte_array with
  | [] => Return []
  | data :: rest =>
      match int16 (b "0x" ++ data) with
      | Return n =>
          match midi_hex rest with
          | Return ns => Return (n :: ns)
          | Raise e => Raise e
          end
      | Raise e => Raise e
      end
  end.

Definition _callback (self : MIDIRelayController) (byte_buffer : list bytes)
  : py world unit :=
  match byte_buffer with
  | [] => ret tt
  | _ =>
      let byte_array := split (concat byte_buffer) in
      match midi_hex byte_array with
      | Raise ValueError => ret tt      (* except ValueError: warning *)
      | Raise e => raise e
      | Return [] => ret tt             (* nothing to unpack *)
      | Return (control :: values) =>
          if Z.land control CONTROL_MASK =? CONTROL_NOTE_OFF
          then raise AttributeError     (* [_logger.debug], not [_logger().debug] *)
          else if Z.land control CONTROL_MASK =? CONTROL_NOTE_ON
          then _set_note_on self (Z.land control CHANNEL_MASK + 1) values
          else ret tt
      end
  end.

(** The [while True] loop, one iteration per [read(1)]. At the end of the
    stream [read(1)] gives [b""]: the loop warns while the process is
    still alive and stops once it has exited. *)
Fixpoint at_eof (lingering : nat) : capture :=
  match lingering with
  | O => Capture [] 0
  | S n => at_eof n
  end.

Fixpoint loop (self : MIDIRelayController) (stdout : bytes) (lingering : nat)
  (buffer : list bytes) (w : world) : outcome unit * world * capture :=
  match stdout with
  | [] => (Return tt, w, at_eof lingering)
  | next_byte :: rest =>
      if Ascii.eqb next_byte newline then loop self rest lingering [] w
      else
        let buffer := buffer ++ [[next_byte]] in
        match _callback self buffer w with
        | (Return _, w') => loop self rest lingering buffer w'
        | (Raise e, w') => (Raise e, w', Capture rest lingering)
        end
  end.

Definition run_forever (self : MIDIRelayController) (process : capture)
  (w : world) : outcome unit * world * capture :=
  match set_value self (base_value self) w with
  | (Raise e, w') => (Raise e, w', process)
  | (Return _, w') =>
      let '(_, rest) := readline (pending process) in
      loop self rest (lingering process) [] w'
  end.

End MIDIRelayController.

(** [relay_controller.relays[i].toggle()], the manual override of [main]. *)
Definition toggle_relay (self : MIDIRelayController) (i : nat)
  : py world Value :=
  match relays self !! i with
  | Some r => Relay.toggle (_channel r)
  | None => raise IndexError
  end.

(** ** Reading the bank back *)

(** What a fresh read of a relay gives; reading leaves the world as it is. *)
Definition reading (channel : Z) (w : world) : outcome Value :=
  fst (Relay.value channel w).

Definition bit_of (v : outcome Value) (i : Z) : outcome Z :=
  match v with
  | Return ON => Return (2 ^ i)
  | Return OFF => Return 0
  | Raise e => Raise e
  end.

Definition add_outcome (x y : outcome Z) : outcome Z :=
  match x, y with
  | Return m, Return n => Return (m + n)
  | Raise e, _ => Raise e
  | _, Raise e => Raise e
  end.

(** [self.relays[i].value] *)
Definition output (self : MIDIRelayController) (i : nat) (w : world)
  : outcome Value :=
  match relays self !! i with
  | Some r => reading (_channel r) w
  | None => Raise IndexError
  end.

(** The bitmask recombined from the three outputs: bit [i] is set when
    output [i] reads ON. *)
Definition recombine (self : MIDIRelayController) (w : world) : outcome Z :=
  add_outcome (bit_of (output self 0 w) 0)
    (add_outcome (bit_of (output self 1 w) 1) (bit_of (output self 2 w) 2)).

(** ** Well-formed states *)

Definition usable (channel : Z) (w : world) : Prop :=
  exists g, gpios w !! channel = Some g /\ exported g = true /\ permitted g = true.

Definition released (channel : Z) (w : world) : Prop :=
  exists g, gpios w !! channel = Some g /\ exported g = false
            /\ level g = Relay._OFF_VALUE.

Definition PINS : list Z :=
  [RELAY_1_GPIO_PIN; RELAY_2_GPIO_PIN; RELAY_3_GPIO_PIN].

(** A controller as its constructor leaves it: the three relays in index
    order, each channel exported and accessible. *)
Definition bank_ready (self : MIDIRelayController) (w : world) : Prop :=
  map _channel (relays self) = PINS /\ Forall (fun c => usable c w) PINS.

(** The world after one successful write to a value file. *)
Definition driven (channel : Z) (v : Value) (w : world) : world :=
  match gpios w !! channel with
  | Some g =>
      commit channel
        (Gpio (exported g) (permitted g) (direction g)
              (Relay._value_to_raw_value v))
        (EvValue channel (Relay._value_to_raw_value v)) w
  | None => w
  end.

(** ** Auxiliary notions of the proofs *)

(** A value from a Python truth value. *)
Definition on_if (t : bool) : Value := if t then ON else OFF.

(** The world after a bitmask has been applied with every write succeeding. *)
Definition applied (value : Z) (w : world) : world :=
  driven 21 (on_if (truthy (Z.land value 0x04)))
    (driven 20 (on_if (truthy (Z.land value 0x02)))
       (driven 26 (on_if (truthy (Z.land value 0x01))) w)).

(** A buffer with a token that [int] refuses. *)
Definition garbled (byte_buffer : list bytes) : Prop :=
  exists token, token ∈ split (concat byte_buffer)
                /\ int16 (b "0x" ++ token) = Raise ValueError.

(** Only the journal tells worlds with equal pins apart; it only grows. *)
Definition extends (w w' : world) : Prop :=
  exists later, journal w' = later ++ journal w.

Definition grows {A} (m : py world A) : Prop :=
  forall w, extends w (snd (m w)).

(** The world after the relays of [channels] have been constructed in
    order, and the fact that each of these constructors returned. *)
Fixpoint acquire (channels : list Z) (w : world) : world :=
  match channels with
  | [] => w
  | c :: rest => acquire rest (snd (Relay.__init__ c w))
  end.

Fixpoint acquired (channels : list Z) (w : world) : Prop :=
  match channels with
  | [] => True
  | c :: rest =>
      (exists r, fst (Relay.__init__ c w) = Return r)
      /\ acquired rest (snd (Relay.__init__ c w))
  end.

(** A computation that leaves every pin but [c] as it found it. *)
Definition touches_only {A} (c : Z) (m : py world A) : Prop :=
  forall w c', c <> c' -> gpios (snd (m w)) !! c' = gpios w !! c'.

(** The buffer after the characters of [s] were read one by one. *)
Definition chars (s : string) : list bytes := map (fun c => [c]) (b s).

(** ** Example states *)

Definition idle_pin : gpio := Gpio false true (b "in") (b "0").

Definition idle_world : world :=
  World (list_to_map [(26, idle_pin); (20, idle_pin); (21, idle_pin)]) [].

Definition live_pin : gpio := Gpio true true (b "out") (b "1").

Definition live_world : world :=
  World (list_to_map [(26, live_pin); (20, live_pin); (21, live_pin)]) [].

(** Channel 21 does not exist; channel 20 is already exported. *)
Definition broken_world : world :=
  World (list_to_map [(26, idle_pin); (20, Gpio true true (b "in") (b "0"))]) [].

Definition controller (base_value channel : Z) : MIDIRelayController :=
  MkController [MkRelay 26 (b "in"); MkRelay 20 (b "in"); MkRelay 21 (b "in")]
               "hw:1,0,0" base_value channel.

(** ** Text: [str.split] *)

(** A [str] is the list of its characters, code points below 256. *)
Abbreviation str := (list ascii).

(** [str.isspace] on that range: the ASCII whitespace, the separators
    U+001C to U+001F, NEL (U+0085) and the no-break space (U+00A0). *)
Definition Py_UNICODE_ISSPACE (c : ascii) : bool :=
  let n := nat_of_ascii c in
  (((9 <=? n) && (n <=? 13)) || ((28 <=? n) && (n <=? 32))
   || (n =? 133) || (n =? 160))%nat.

(** [str.split()] without arguments. *)
Fixpoint str_split_from (token : str) (s : str) : list str :=
  match s with
  | [] => match token with [] => [] | _ => [token] end
  | c :: s' =>
      if Py_UNICODE_ISSPACE c
      then match token with
           | [] => str_split_from [] s'
           | _ => token :: str_split_from [] s'
           end
      else str_split_from (token ++ [c]) s'
  end.

Definition str_split (s : str) : list str := str_split_from [] s.

(** [s.split(sep, maxsplit)] for a separator of one character; [piece] is
    the part being read. *)
Fixpoint split_sep_from (sep : ascii) (maxsplit : nat) (piece : str) (s : str)
  : list str :=
  match s with
  | [] => [piece]
  | c :: s' =>
      match maxsplit with
      | O => [piece ++ s]
      | S m =>
          if Ascii.eqb c sep then piece :: split_sep_from sep m [] s'
          else split_sep_from sep maxsplit (piece ++ [c]) s'
      end
  end.

Definition split_sep (sep : ascii) (maxsplit : nat) (s : str) : list str :=
  split_sep_from sep maxsplit [] s.

(** ** Start-up: [_get_midi_port] and the manual override of [main] *)

(** Exceptions of the start-up code that the relay code never raises. *)
Inductive startup_exn :=
| Builtin (e : exn)
| TimeoutExpired
| EOFError.

(** [communicate] is what [popen.communicate(timeout=5)] gives for
    [amidi -l]: the pair of outputs, or [None] when the timeout expires (the
    process is then killed and the exception raised again). The result is
    [stdout_data.split('\n', 2)[1].split()[1]]. *)
Definition _get_midi_port (communicate : option (str * str))
  : str + startup_exn :=
  match communicate with
  | None => inr TimeoutExpired
  | Some (stdout_data, stderr_data) =>
      match split_sep newline 2 stdout_data !! 1%nat with
      | None => inr (Builtin IndexError)
      | Some line =>
          match str_split line !! 1%nat with
          | None => inr (Builtin IndexError)
          | Some port => inl port
          end
      end
  end.

Definition instructions : string :=
  "Enter 1, 2, or 3 to toggle channel, q to quit".

(** [x in {"1", "2", "3"}] and then [int(x) - 1]. *)
Definition choice (x : string) : option nat :=
  if String.eqb x "1" then Some 0%nat
  else if String.eqb x "2" then Some 1%nat
  else if String.eqb x "3" then Some 2%nat
  else None.

(** The [while True] loop that ends [main]: [stdin] holds the lines that
    [input()] will return, and [input()] raises [EOFError] after the last
    one. [printed] collects what is printed. *)
Fixpoint override (self : MIDIRelayController) (stdin : list string)
  (printed : list string) (w : world)
  : (unit + startup_exn) * list string * world :=
  match stdin with
  | [] => (inr EOFError, printed, w)
  | x :: rest =>
      if String.eqb x "q" then (inl tt, printed, w)
      else match choice x with
           | Some i =>
               match toggle_relay self i w with
               | (Return _, w') => override self rest printed w'
               | (Raise e, w') => (inr (Builtin e), printed, w')
               end
           | None =>
               override self rest
                 (printed ++ [("Invalid choice " ++ x)%string; instructions]) w
           end
  end.

(** ** Notions of the further properties *)

(** The value of a string of hexadecimal digits, most significant first. *)
Definition hex_value (digits : bytes) : Z :=
  fold_left (fun acc c => acc * 16 + _PyLong_DigitValue c) digits 0.

Definition hex_digit (c : ascii) : Prop := _PyLong_DigitValue c < 16.

(** A character that no hexadecimal literal and no separator contains. *)
Definition stray (c : ascii) : Prop :=
  Py_ISSPACE c = false /\ is_underscore c = false /\ 16 <= _PyLong_DigitValue c.

(** A write of ON or OFF to the value file of one of the relays of [self]. *)
Definition relay_write (self : MIDIRelayController) (ev : event) : Prop :=
  exists c v, ev = EvValue c (Relay._value_to_raw_value v)
              /\ c ∈ map _channel (relays self).

(** A pin as the constructor of a relay leaves it. *)
Definition fresh_pin : gpio :=
  Gpio true true Relay.DIRECTION Relay._OFF_VALUE.

(** The journal of [w'] is the one of [w] with entries in front that all
    satisfy [P]; a computation that only adds such entries. *)
Definition only (P : event -> Prop) (w w' : world) : Prop :=
  exists later, journal w' = later ++ journal w /\ Forall P later.

Definition adds {A} (P : event -> Prop) (m : py world A) : Prop :=
  forall w, only P w (snd (m w)).

(** The bitmasks the control loop can apply: the base value and the values
    of the note table. *)
Definition loop_bitmask (self : MIDIRelayController) (m : Z) : Prop :=
  m = base_value self \/ 1 <= m <= 7.

(** The pin exists and its files can be opened once it is exported. *)
Definition available (channel : Z) (w : world) : Prop :=
  exists g, gpios w !! channel = Some g /\ permitted g = true.

(** How often the line [x] occurs among the lines read before [q], as a
    parity. *)
Fixpoint odd_presses (x : string) (stdin : list string) : bool :=
  match stdin with
  | [] => false
  | y :: rest =>
      if String.eqb y "q" then false
      else xorb (String.eqb y x) (odd_presses x rest)
  end.

(** ** The GPIO tree: basic facts *)

Lemma open_gpio_usable c w g :
  gpios w !! c = Some g -> exported g = true -> permitted g = true ->
  open_gpio c w = (Return g, w).
Proof.
  intros Hg He Hp. unfold open_gpio. rewrite Hg, He, Hp. reflexivity.
Qed.

Lemma set_value_usable c v w :
  usable c w -> Relay.set_value c v w = (Return tt, driven c v w).
Proof.
  intros (g & Hg & He & Hp).
  unfold Relay.set_value, Relay._set_raw_value, read_value, write_value, bind, ret.
  rewrite (open_gpio_usable c w g Hg He Hp).
  rewrite (open_gpio_usable c w g Hg He Hp).
  unfold driven. rewrite Hg. reflexivity.
Qed.

Lemma usable_driven c c' v w : usable c' w -> usable c' (driven c v w).
Proof.
  intros (g & Hg & He & Hp). unfold driven.
  destruct (gpios w !! c) as [h|] eqn:Hh; [|exists g; auto].
  destruct (decide (c = c')) as [->|Hne].
  - rewrite Hg in Hh. injection Hh as <-.
    eexists. simpl. rewrite lookup_insert_eq. split; [reflexivity|]. auto.
  - exists g. simpl. rewrite lookup_insert_ne by assumption. auto.
Qed.

Lemma value_roundtrip v :
  @Relay._raw_value_to_value world (Relay._value_to_raw_value v) = ret v.
Proof. destruct v; reflexivity. Qed.

Lemma reading_driven_same c v w :
  usable c w -> reading c (driven c v w) = Return v.
Proof.
  intros (g & Hg & He & Hp).
  unfold reading, Relay.value, read_value, bind, ret, driven. rewrite Hg.
  erewrite open_gpio_usable;
    [| simpl; apply lookup_insert_eq | simpl; assumption | simpl; assumption].
  simpl level. rewrite value_roundtrip. reflexivity.
Qed.

Lemma reading_frame c' w w' :
  gpios w' !! c' = gpios w !! c' -> reading c' w' = reading c' w.
Proof.
  intros H. unfold reading, Relay.value, read_value, bind, ret, open_gpio.
  rewrite H. destruct (gpios w !! c') as [g|]; [|reflexivity].
  destruct (exported g && permitted g); [|reflexivity].
  unfold Relay._raw_value_to_value, ret, raise.
  destruct (bytes_eqb _ _); [reflexivity|].
  destruct (bytes_eqb _ _); reflexivity.
Qed.

Lemma driven_frame c c' v w :
  c <> c' -> gpios (driven c v w) !! c' = gpios w !! c'.
Proof.
  intros Hne. unfold driven. destruct (gpios w !! c); [|reflexivity].
  simpl. apply lookup_insert_ne. assumption.
Qed.

Lemma reading_driven_other c c' v w :
  c <> c' -> reading c' (driven c v w) = reading c' w.
Proof. intros Hne. apply reading_frame. apply driven_frame. assumption. Qed.

Lemma journal_driven c v w :
  usable c w ->
  journal (driven c v w) = EvValue c (Relay._value_to_raw_value v) :: journal w.
Proof. intros (g & Hg & _). unfold driven. rewrite Hg. reflexivity. Qed.

(** ** The relay bank *)

Lemma bank_relays self :
  map _channel (relays self) = PINS ->
  exists r0 r1 r2, relays self = [r0; r1; r2]
    /\ _channel r0 = 26 /\ _channel r1 = 20 /\ _channel r2 = 21.
Proof.
  unfold PINS. intros H.
  destruct (relays self) as [|r0 [|r1 [|r2 [|r3 l]]]]; try discriminate.
  injection H as H0 H1 H2. exists r0, r1, r2. auto.
Qed.

Lemma bank_usable self w :
  bank_ready self w -> usable 26 w /\ usable 20 w /\ usable 21 w.
Proof.
  intros [_ H]. unfold PINS in H.
  inversion H as [|? ? H26 H']; subst.
  inversion H' as [|? ? H20 H'']; subst.
  inversion H'' as [|? ? H21 _]; subst. auto.
Qed.

Lemma set_value_ready self value w :
  bank_ready self w -> 0 <= value <= 7 ->
  MIDIRelayController.set_value self value w = (Return tt, applied value w).
Proof.
  intros Hready Hrange.
  destruct (bank_usable self w Hready) as (U26 & U20 & U21).
  destruct Hready as [Hch _].
  destruct (bank_relays self Hch) as (r0 & r1 & r2 & Hr & C0 & C1 & C2).
  unfold MIDIRelayController.set_value.
  replace ((value <? 0) || (value >? 7)) with false by lia.
  unfold MIDIRelayController.set_relay, bind. rewrite Hr.
  change ([r0; r1; r2] !! 0%nat) with (Some r0).
  change ([r0; r1; r2] !! 1%nat) with (Some r1).
  change ([r0; r1; r2] !! 2%nat) with (Some r2).
  cbv beta iota. rewrite C0, C1, C2.
  rewrite set_value_usable by assumption.
  rewrite set_value_usable by (apply usable_driven; assumption).
  rewrite set_value_usable by (do 2 apply usable_driven; assumption).
  reflexivity.
Qed.

Lemma applied_ready self value w :
  bank_ready self w -> bank_ready self (applied value w).
Proof.
  intros [Hch H]. split; [assumption|].
  eapply Forall_impl; [exact H|].
  intros c Hc. unfold applied. do 3 apply usable_driven. exact Hc.
Qed.

Lemma reading_applied value w :
  usable 26 w -> usable 20 w -> usable 21 w ->
  reading 26 (applied value w) = Return (on_if (truthy (Z.land value 0x01)))
  /\ reading 20 (applied value w) = Return (on_if (truthy (Z.land value 0x02)))
  /\ reading 21 (applied value w) = Return (on_if (truthy (Z.land value 0x04))).
Proof.
  intros U26 U20 U21. unfold applied. repeat split.
  - rewrite !reading_driven_other by discriminate.
    apply reading_driven_same. assumption.
  - rewrite reading_driven_other by discriminate.
    apply reading_driven_same. apply usable_driven. assumption.
  - apply reading_driven_same. do 2 apply usable_driven. assumption.
Qed.

Lemma journal_applied value w :
  usable 26 w -> usable 20 w -> usable 21 w ->
  journal (applied value w) =
    [EvValue 21 (Relay._value_to_raw_value (on_if (truthy (Z.land value 0x04))));
     EvValue 20 (Relay._value_to_raw_value (on_if (truthy (Z.land value 0x02))));
     EvValue 26 (Relay._value_to_raw_value (on_if (truthy (Z.land value 0x01))))]
    ++ journal w.
Proof.
  intros U26 U20 U21. unfold applied.
  rewrite journal_driven by (do 2 apply usable_driven; assumption).
  rewrite journal_driven by (apply usable_driven; assumption).
  rewrite journal_driven by assumption. reflexivity.
Qed.

Lemma small_bitmask value :
  0 <= value <= 7 ->
  value = 0 \/ value = 1 \/ value = 2 \/ value = 3
  \/ value = 4 \/ value = 5 \/ value = 6 \/ value = 7.
Proof. lia. Qed.

Lemma applied_reads_back self m w :
  bank_ready self w -> 0 <= m <= 7 ->
  (forall i, (i < 3)%nat ->
     output self i (applied m w) = Return (on_if (Z.testbit m (Z.of_nat i))))
  /\ recombine self (applied m w) = Return m.
Proof.
  intros Hready Hm.
  destruct (bank_usable self w Hready) as (U26 & U20 & U21).
  destruct (reading_applied m w U26 U20 U21) as (R0 & R1 & R2).
  destruct Hready as [Hch _].
  destruct (bank_relays self Hch) as (r0 & r1 & r2 & Hr & C0 & C1 & C2).
  assert (O0 : output self 0 (applied m w)
               = Return (on_if (truthy (Z.land m 0x01)))).
  { unfold output. rewrite Hr.
    change ([r0; r1; r2] !! 0%nat) with (Some r0).
    cbv beta iota. rewrite C0. exact R0. }
  assert (O1 : output self 1 (applied m w)
               = Return (on_if (truthy (Z.land m 0x02)))).
  { unfold output. rewrite Hr.
    change ([r0; r1; r2] !! 1%nat) with (Some r1).
    cbv beta iota. rewrite C1. exact R1. }
  assert (O2 : output self 2 (applied m w)
               = Return (on_if (truthy (Z.land m 0x04)))).
  { unfold output. rewrite Hr.
    change ([r0; r1; r2] !! 2%nat) with (Some r2).
    cbv beta iota. rewrite C2. exact R2. }
  split.
  - intros i Hi.
    destruct i as [|[|[|i]]]; [rewrite O0 | rewrite O1 | rewrite O2 | lia];
      destruct (small_bitmask m Hm) as [->|[->|[->|[->|[->|[->|[->| ->]]]]]]];
      reflexivity.
  - unfold recombine. rewrite O0, O1, O2.
    destruct (small_bitmask m Hm) as [->|[->|[->|[->|[->|[->|[->| ->]]]]]]];
      reflexivity.
Qed.

(** C2: for every bitmask [m] in [0,7], after [set_value m] output [i] reads
    ON exactly when bit [i] of [m] is set, and recombining the three
    readings gives back [m]. *)
Theorem set_value_roundtrip self m w :
  bank_ready self w -> 0 <= m <= 7 ->
  exists w',
    MIDIRelayController.set_value self m w = (Return tt, w')
    /\ (forall i, (i < 3)%nat ->
         output self i w' = Return (on_if (Z.testbit m (Z.of_nat i))))
    /\ recombine self w' = Return m.
Proof.
  intros Hready Hm. exists (applied m w).
  split; [apply set_value_ready; assumption|].
  apply applied_reads_back; assumption.
Qed.

Lemma live_world_ready base ch : bank_ready (controller base ch) live_world.
Proof.
  split; [reflexivity|].
  repeat constructor; exists live_pin; repeat split; reflexivity.
Qed.

Lemma set_value_roundtrip_witness :
  exists w',
    MIDIRelayController.set_value (controller 0 4) 5 live_world = (Return tt, w')
    /\ (forall i, (i < 3)%nat ->
         output (controller 0 4) i w' = Return (on_if (Z.testbit 5 (Z.of_nat i))))
    /\ recombine (controller 0 4) w' = Return 5.
Proof.
  apply (set_value_roundtrip (controller 0 4) 5 live_world).
  - apply live_world_ready.
  - lia.
Defined.

(** C6: [set_value] called with an integer outside [0,7] raises
    [ValueError] and writes nothing: the world, journal included, is the
    one it was called in. *)
Theorem set_value_rejects_out_of_range self value w :
  value < 0 \/ value > 7 ->
  MIDIRelayController.set_value self value w = (Raise ValueError, w).
Proof.
  intros H. unfold MIDIRelayController.set_value.
  replace ((value <? 0) || (value >? 7)) with true by lia.
  reflexivity.
Qed.

Lemma set_value_rejects_out_of_range_witness :
  MIDIRelayController.set_value (controller 0 4) 8 live_world
  = (Raise ValueError, live_world).
Proof.
  apply (set_value_rejects_out_of_range (controller 0 4) 8 live_world).
  right. lia.
Defined.

(** ** Toggling one relay *)

Lemma value_pure c w : Relay.value c w = (reading c w, w).
Proof.
  unfold reading, Relay.value, read_value, bind, ret, open_gpio.
  destruct (gpios w !! c) as [g|]; [|reflexivity].
  destruct (exported g && permitted g); [|reflexivity].
  unfold Relay._raw_value_to_value, ret, raise.
  destruct (bytes_eqb _ _); [reflexivity|].
  destruct (bytes_eqb _ _); reflexivity.
Qed.

Lemma toggle_usable c v w :
  usable c w -> reading c w = Return v ->
  Relay.toggle c w = (Return (negate v), driven c (negate v) w).
Proof.
  intros U R. unfold Relay.toggle, bind.
  rewrite value_pure, R.
  replace (match v with
           | ON => Relay.set_value c OFF
           | OFF => Relay.set_value c ON
           end) with (Relay.set_value c (negate v)) by (destruct v; reflexivity).
  rewrite set_value_usable by assumption.
  rewrite value_pure, reading_driven_same by assumption. reflexivity.
Qed.

Lemma output_frame self i w w' :
  (forall r, relays self !! i = Some r ->
             gpios w' !! _channel r = gpios w !! _channel r) ->
  output self i w' = output self i w.
Proof.
  intros H. unfold output. destruct (relays self !! i) as [r|]; [|reflexivity].
  apply reading_frame. apply H. reflexivity.
Qed.

(** C9: for every index in {0,1,2} and every state of the outputs,
    toggling that relay inverts its value, returns the new value, and
    leaves the readings of the other two outputs as they were. *)
Theorem toggle_flips_one self i v w :
  bank_ready self w -> (i < 3)%nat -> output self i w = Return v ->
  exists w',
    toggle_relay self i w = (Return (negate v), w')
    /\ output self i w' = Return (negate v)
    /\ forall j, j <> i -> output self j w' = output self j w.
Proof.
  intros Hready Hi Hv.
  destruct (bank_usable self w Hready) as (U26 & U20 & U21).
  destruct Hready as [Hch _].
  destruct (bank_relays self Hch) as (r0 & r1 & r2 & Hr & C0 & C1 & C2).
  assert (Hpick : exists r, relays self !! i = Some r /\ usable (_channel r) w
            /\ forall j r', j <> i -> relays self !! j = Some r' ->
                            _channel r <> _channel r').
  { rewrite Hr. destruct i as [|[|[|i]]]; [exists r0 | exists r1 | exists r2 | lia];
      (split; [reflexivity|]); (split; [congruence|]);
      intros [|[|[|j]]] r' Hj Hr'; try congruence;
      try (injection Hr' as <-; congruence);
      discriminate Hr'. }
  destruct Hpick as (r & Hri & Ur & Hdistinct).
  unfold output in Hv. rewrite Hri in Hv.
  exists (driven (_channel r) (negate v) w). repeat split.
  - unfold toggle_relay. rewrite Hri. apply toggle_usable; assumption.
  - unfold output. rewrite Hri. apply reading_driven_same. assumption.
  - intros j Hj. apply output_frame. intros r' Hr'.
    apply driven_frame. eapply Hdistinct; eassumption.
Qed.

Lemma toggle_flips_one_witness :
  exists w',
    toggle_relay (controller 0 4) 1 live_world = (Return ON, w')
    /\ output (controller 0 4) 1 w' = Return ON
    /\ forall j, j <> 1%nat ->
         output (controller 0 4) j w' = output (controller 0 4) j live_world.
Proof.
  apply (toggle_flips_one (controller 0 4) 1 OFF live_world).
  - apply live_world_ready.
  - lia.
  - reflexivity.
Defined.

(** ** Decoding the buffer *)

Lemma int16_raises x e : int16 x = Raise e -> e = ValueError.
Proof.
  unfold int16. intros H.
  repeat case_match; congruence.
Qed.

Lemma midi_hex_cons data rest :
  MIDIRelayController.midi_hex (data :: rest) =
    match int16 (b "0x" ++ data) with
    | Return n =>
        match MIDIRelayController.midi_hex rest with
        | Return ns => Return (n :: ns)
        | Raise e => Raise e
        end
    | Raise e => Raise e
    end.
Proof. reflexivity. Qed.

Lemma midi_hex_raises tokens e :
  MIDIRelayController.midi_hex tokens = Raise e -> e = ValueError.
Proof.
  induction tokens as [|t tokens IH]; [discriminate|].
  rewrite midi_hex_cons.
  destruct (int16 (b "0x" ++ t)) as [n|e'] eqn:Ht.
  - destruct (MIDIRelayController.midi_hex tokens) as [ns|e'']; [discriminate|].
    intros [= <-]. apply IH. reflexivity.
  - intros [= <-]. eapply int16_raises. exact Ht.
Qed.

Lemma midi_hex_bad_token tokens token :
  token ∈ tokens -> int16 (b "0x" ++ token) = Raise ValueError ->
  MIDIRelayController.midi_hex tokens = Raise ValueError.
Proof.
  intros Hin Hbad. induction Hin as [t l | t t' l Hin IH];
    rewrite midi_hex_cons.
  - rewrite Hbad. reflexivity.
  - destruct (int16 (b "0x" ++ t')) as [n|e] eqn:Ht.
    + rewrite IH by assumption. reflexivity.
    + f_equal. eapply int16_raises. exact Ht.
Qed.

Lemma midi_hex_return tokens frame :
  MIDIRelayController.midi_hex tokens = Return frame ->
  Forall2 (fun token n => int16 (b "0x" ++ token) = Return n) tokens frame.
Proof.
  revert frame. induction tokens as [|t tokens IH]; intros frame.
  - intros [= <-]. constructor.
  - rewrite midi_hex_cons. destruct (int16 (b "0x" ++ t)) as [n|e] eqn:Ht; [|discriminate].
    destruct (MIDIRelayController.midi_hex tokens) as [ns|e]; [|discriminate].
    intros [= <-]. constructor; [exact Ht | apply IH; reflexivity].
Qed.

Lemma callback_decoded self byte_buffer control values w :
  MIDIRelayController.midi_hex (split (concat byte_buffer))
    = Return (control :: values) ->
  MIDIRelayController._callback self byte_buffer w =
    if Z.land control 0xF0 =? 0x80 then (Raise AttributeError, w)
    else if Z.land control 0xF0 =? 0x90
         then MIDIRelayController._set_note_on self
                (Z.land control 0x0F + 1) values w
         else (Return tt, w).
Proof.
  intros H. unfold MIDIRelayController._callback.
  destruct byte_buffer as [|x l]; [cbv in H; discriminate H|].
  rewrite H.
  unfold MIDIRelayController.CONTROL_MASK, MIDIRelayController.CONTROL_NOTE_OFF,
    MIDIRelayController.CONTROL_NOTE_ON, MIDIRelayController.CHANNEL_MASK.
  destruct (Z.land control 0xF0 =? 0x80); [reflexivity|].
  destruct (Z.land control 0xF0 =? 0x90); reflexivity.
Qed.

Lemma callback_garbled self byte_buffer token w :
  token ∈ split (concat byte_buffer) ->
  int16 (b "0x" ++ token) = Raise ValueError ->
  MIDIRelayController._callback self byte_buffer w = (Return tt, w).
Proof.
  intros Hin Hbad. unfold MIDIRelayController._callback.
  destruct byte_buffer as [|x l]; [reflexivity|].
  rewrite (midi_hex_bad_token _ _ Hin Hbad). reflexivity.
Qed.

(** ** Routing note-on messages *)

(** C1: for every decoded frame [status :: data] whose status is a note-on:
    a message on another channel than the configured one does nothing; a
    message without data does nothing; otherwise [set_value] is called with
    the entry of [NOTE_TO_VALUE] for [data[0]], or with the base value when
    the note has no entry. *)
Theorem note_on_routing self byte_buffer status data w :
  MIDIRelayController.midi_hex (split (concat byte_buffer))
    = Return (status :: data) ->
  Z.land status 0xF0 = 0x90 ->
  (Z.land status 0x0F + 1 <> channel self ->
   MIDIRelayController._callback self byte_buffer w = (Return tt, w))
  /\ (data = [] ->
      MIDIRelayController._callback self byte_buffer w = (Return tt, w))
  /\ (forall note rest,
        Z.land status 0x0F + 1 = channel self -> data = note :: rest ->
        MIDIRelayController._callback self byte_buffer w =
          MIDIRelayController.set_value self
            (match MIDIRelayController.NOTE_TO_VALUE !! note with
             | Some bitmask => bitmask
             | None => base_value self
             end) w).
Proof.
  intros Hframe Hon.
  rewrite (callback_decoded self byte_buffer status data w Hframe), Hon.
  change (0x90 =? 0x80) with false. change (0x90 =? 0x90) with true.
  cbv beta iota. unfold MIDIRelayController._set_note_on.
  repeat split.
  - intros Hne.
    replace (Z.land status 0x0F + 1 =? channel self) with false by lia.
    reflexivity.
  - intros ->. destruct (negb _); reflexivity.
  - intros note rest Heq ->.
    replace (Z.land status 0x0F + 1 =? channel self) with true by lia.
    reflexivity.
Qed.

Lemma note_on_routing_witness :
  MIDIRelayController._callback (controller 0 4) (chars "93 3c") live_world
  = MIDIRelayController.set_value (controller 0 4) 1 live_world.
Proof.
  refine (proj2 (proj2 (note_on_routing (controller 0 4) (chars "93 3c")
                          0x93 [60] live_world _ _)) 60 [] _ _);
    reflexivity.
Defined.

Example note_on_other_channel w :
  MIDIRelayController._callback (controller 0 4) (chars "94 3c") w = (Return tt, w).
Proof. reflexivity. Qed.

Example note_on_unmapped w :
  MIDIRelayController._callback (controller 2 4) (chars "93 63") w
  = MIDIRelayController.set_value (controller 2 4) 2 w.
Proof. reflexivity. Qed.

(** ** Note-off messages *)

Lemma note_off_raises self byte_buffer status data w :
  MIDIRelayController.midi_hex (split (concat byte_buffer))
    = Return (status :: data) ->
  Z.land status 0xF0 = 0x80 ->
  MIDIRelayController._callback self byte_buffer w = (Raise AttributeError, w).
Proof.
  intros Hframe Hoff.
  rewrite (callback_decoded self byte_buffer status data w Hframe), Hoff.
  reflexivity.
Qed.

(** C3 (not met by the code): a note-off frame should be ignored without
    an error and the loop should go on. The note-off branch evaluates
    [_logger.debug] on the function object, so [_callback] raises
    [AttributeError]: no relay is written, but the exception leaves
    [run_forever] and the note-on that follows in the stream is never
    read. *)
Theorem note_off_stops_the_loop self n w :
  MIDIRelayController._callback self (chars "83") w = (Raise AttributeError, w)
  /\ MIDIRelayController.loop self
       (b "83 3c 40" ++ newline :: b "93 3c 7f") n [] w
     = (Raise AttributeError, w,
        Capture (b " 3c 40" ++ newline :: b "93 3c 7f") n)
  /\ MIDIRelayController.run_forever (controller 0 4)
       (Capture (newline :: b "83 3c 40" ++ newline :: b "93 3c 7f") n)
       live_world
     = (Raise AttributeError, applied 0 live_world,
        Capture (b " 3c 40" ++ newline :: b "93 3c 7f") n).
Proof. repeat split; reflexivity. Qed.

(** ** The accumulation buffer *)

Lemma loop_newline self rest n buffer w :
  MIDIRelayController.loop self (newline :: rest) n buffer w
  = MIDIRelayController.loop self rest n [] w.
Proof. reflexivity. Qed.

Lemma loop_char self c rest n buffer w :
  c <> newline ->
  MIDIRelayController.loop self (c :: rest) n buffer w =
    match MIDIRelayController._callback self (buffer ++ [[c]]) w with
    | (Return _, w') =>
        MIDIRelayController.loop self rest n (buffer ++ [[c]]) w'
    | (Raise e, w') => (Raise e, w', Capture rest n)
    end.
Proof.
  intros Hc. cbn [MIDIRelayController.loop].
  destruct (Ascii.eqb_spec c newline) as [->|_]; [contradiction|reflexivity].
Qed.

Lemma loop_garbled self junk : forall buffer rest n w,
  newline ∉ junk ->
  (forall k, (0 < k <= length junk)%nat ->
             garbled (buffer ++ map (fun c => [c]) (take k junk))) ->
  MIDIRelayController.loop self (junk ++ newline :: rest) n buffer w
  = MIDIRelayController.loop self rest n [] w.
Proof.
  induction junk as [|c junk IH]; intros buffer rest n w Hnl Hbad.
  - apply loop_newline.
  - change ((c :: junk) ++ newline :: rest)
      with (c :: (junk ++ newline :: rest)).
    rewrite loop_char by (intros ->; apply Hnl; left).
    assert (H1 : garbled (buffer ++ [[c]])) by (apply (Hbad 1%nat); simpl; lia).
    destruct H1 as (token & Hin & Htok).
    rewrite (callback_garbled self _ token w Hin Htok).
    apply IH.
    + intros Hin'. apply Hnl. right. exact Hin'.
    + intros k Hk. specialize (Hbad (S k)).
      change (take (S k) (c :: junk)) with (c :: take k junk) in Hbad.
      rewrite <- app_assoc. apply Hbad. simpl. lia.
Qed.

(** C4: a newline empties the accumulation buffer and triggers no call;
    a buffer holding a token that is not a hexadecimal literal makes
    [_callback] return without any write; whatever was accumulated before a
    newline has no influence on what happens after it, and a fragment that
    never decodes has no effect at all. *)
Theorem newline_resynchronises self w :
  (forall rest n buffer,
     MIDIRelayController.loop self (newline :: rest) n buffer w
     = MIDIRelayController.loop self rest n [] w)
  /\ (forall byte_buffer,
        garbled byte_buffer ->
        MIDIRelayController._callback self byte_buffer w = (Return tt, w))
  /\ (forall rest n buffer buffer',
        MIDIRelayController.loop self (newline :: rest) n buffer w
        = MIDIRelayController.loop self (newline :: rest) n buffer' w)
  /\ (forall junk buffer rest n,
        newline ∉ junk ->
        (forall k, (0 < k <= length junk)%nat ->
                   garbled (buffer ++ map (fun c => [c]) (take k junk))) ->
        MIDIRelayController.loop self (junk ++ newline :: rest) n buffer w
        = MIDIRelayController.loop self rest n [] w).
Proof.
  repeat split.
  - intros byte_buffer (token & Hin & Hbad).
    eapply callback_garbled; eassumption.
  - intros. apply loop_garbled; assumption.
Qed.

Lemma garbled_example : garbled (chars "9z").
Proof. exists (b "9z"). split; [left | reflexivity]. Qed.

Lemma junk_example k :
  (0 < k <= length (b "z9"))%nat ->
  garbled ([] ++ map (fun c => [c]) (take k (b "z9"))).
Proof.
  intros Hk. destruct k as [|[|[|k]]]; [lia | | | simpl in Hk; lia].
  - exists (b "z"). split; [left | reflexivity].
  - exists (b "z9"). split; [left | reflexivity].
Qed.

Lemma newline_not_in_junk : newline ∉ b "z9".
Proof. intros H. repeat (inversion H as [|? ? ? H']; subst; clear H; rename H' into H). Qed.

Lemma newline_resynchronises_witness :
  MIDIRelayController._callback (controller 0 4) (chars "9z") live_world
    = (Return tt, live_world)
  /\ MIDIRelayController.loop (controller 0 4)
       (b "z9" ++ newline :: b "93 3c") 0 [] live_world
     = MIDIRelayController.loop (controller 0 4) (b "93 3c") 0 [] live_world.
Proof.
  destruct (newline_resynchronises (controller 0 4) live_world)
    as (_ & Hgarbled & _ & Hjunk).
  split.
  - apply Hgarbled. exact garbled_example.
  - apply (Hjunk (b "z9") [] (b "93 3c") 0%nat).
    + exact newline_not_in_junk.
    + exact junk_example.
Defined.

(** ** Values of a decoded frame *)

Lemma digit_nonneg c : 0 <= _PyLong_DigitValue c.
Proof.
  unfold _PyLong_DigitValue.
  repeat case_match; lia.
Qed.

Lemma scan_digits_bound s : forall prev acc v rest,
  0 <= acc -> scan_digits prev acc s = Some (v, rest) ->
  0 <= v < (acc + 1) * 16 ^ Z.of_nat (length s).
Proof.
  induction s as [|c s IH]; intros prev acc v rest Hacc; cbn [scan_digits].
  - destruct prev; [discriminate|]. intros [= <- <-]. simpl. lia.
  - assert (Hpow : 16 ^ Z.of_nat (length (c :: s))
                   = 16 * 16 ^ Z.of_nat (length s)).
    { cbn [length]. rewrite Nat2Z.inj_succ, Z.pow_succ_r by lia. reflexivity. }
    assert (Hpos : 0 < 16 ^ Z.of_nat (length s)) by (apply Z.pow_pos_nonneg; lia).
    rewrite Hpow.
    destruct (is_underscore c).
    + destruct prev; [discriminate|]. intros H.
      apply IH in H; [nia | assumption].
    + destruct (_PyLong_DigitValue c <? 16) eqn:Hd.
      * intros H. pose proof (digit_nonneg c) as Hn.
        apply IH in H; [nia | lia].
      * destruct prev; [discriminate|]. intros [= <- <-]. nia.
Qed.

(** [int(b"0x" + data, base=16)]: nothing is stripped, there is no sign, and
    the prefix is the one the code prepends. *)
Lemma int16_prefixed data :
  int16 (b "0x" ++ data) =
    let s := match data with
             | c2 :: t' => if is_underscore c2 then t' else data
             | [] => data
             end in
    match s with
    | [] => Raise ValueError
    | c :: _ =>
        if is_underscore c then Raise ValueError
        else match scan_digits false 0 s with
             | Some (v, rest) =>
                 if bool_decide (rest = s) then Raise ValueError
                 else match lstrip rest with
                      | [] => Return (1 * v)
                      | _ => Raise ValueError
                      end
             | None => Raise ValueError
             end
    end.
Proof. reflexivity. Qed.

Lemma int16_range data n :
  int16 (b "0x" ++ data) = Return n -> 0 <= n < 16 ^ Z.of_nat (length data).
Proof.
  rewrite int16_prefixed. cbv zeta.
  set (s := match data with
            | c2 :: t' => if is_underscore c2 then t' else data
            | [] => data
            end).
  assert (Hlen : (length s <= length data)%nat).
  { subst s. destruct data as [|c2 t']; [lia|].
    destruct (is_underscore c2); simpl; lia. }
  destruct s as [|c s'] eqn:Hs; [discriminate|].
  destruct (is_underscore c); [discriminate|].
  destruct (scan_digits false 0 (c :: s')) as [[v rest]|] eqn:Hscan;
    [|discriminate].
  destruct (bool_decide (rest = c :: s')); [discriminate|].
  destruct (lstrip rest); [|discriminate].
  intros [= <-].
  apply scan_digits_bound in Hscan; [|lia].
  assert (16 ^ Z.of_nat (length (c :: s')) <= 16 ^ Z.of_nat (length data))
    by (apply Z.pow_le_mono_r; lia).
  lia.
Qed.

(** C5 as stated does not hold: the token [193] has three digits and
    decodes to 403, and the frame [403, 60] is routed like a note-on of
    channel 4 and drives the relays. *)
Lemma wide_token_is_decoded :
  ~ (forall byte_buffer frame,
       MIDIRelayController.midi_hex (split (concat byte_buffer)) = Return frame ->
       Forall (fun token => length token = 2%nat) (split (concat byte_buffer))
       /\ Forall (fun n => 0 <= n <= 255) frame).
Proof.
  intros H.
  destruct (H (chars "193 3c") [403; 60] eq_refl) as [_ Hrange].
  inversion Hrange as [|? ? H403 _]. lia.
Qed.

Example wide_token_drives_the_relays w :
  MIDIRelayController._callback (controller 0 4) (chars "193 3c") w
  = MIDIRelayController.set_value (controller 0 4) 1 w.
Proof. reflexivity. Qed.

Example single_digit_is_decoded :
  MIDIRelayController.midi_hex (split (concat (chars "9"))) = Return [9].
Proof. reflexivity. Qed.

(** C5, amended: the buffer is interpreted only when every token is
    accepted by [int(b"0x" + token, base=16)], whatever its number of
    digits; a buffer with a token that is refused is dropped without a
    write. Every element of a decoded frame is the value of its token, is
    not negative and is below 16 to the power of the token's length, hence
    at most 255 for tokens of one or two characters. *)
Theorem decoded_frame_values self byte_buffer w :
  (forall e,
     MIDIRelayController.midi_hex (split (concat byte_buffer)) = Raise e ->
     MIDIRelayController._callback self byte_buffer w = (Return tt, w))
  /\ (forall frame,
        MIDIRelayController.midi_hex (split (concat byte_buffer)) = Return frame ->
        Forall2 (fun token n =>
                   int16 (b "0x" ++ token) = Return n
                   /\ 0 <= n < 16 ^ Z.of_nat (length token)
                   /\ ((length token <= 2)%nat -> n <= 255))
                (split (concat byte_buffer)) frame).
Proof.
  split.
  - intros e He. pose proof (midi_hex_raises _ _ He) as ->.
    unfold MIDIRelayController._callback.
    destruct byte_buffer; [reflexivity|]. rewrite He. reflexivity.
  - intros frame Hframe.
    eapply Forall2_impl; [apply midi_hex_return; exact Hframe|].
    intros token n Hn. cbv beta in Hn.
    pose proof (int16_range token n Hn) as Hr.
    split; [exact Hn|]. split; [exact Hr|].
    intros Hlen.
    assert (16 ^ Z.of_nat (length token) <= 16 ^ 2)
      by (apply Z.pow_le_mono_r; lia).
    change (16 ^ 2) with 256 in *. lia.
Qed.

Lemma decoded_frame_values_witness :
  MIDIRelayController._callback (controller 0 4) (chars "9z") live_world
    = (Return tt, live_world)
  /\ Forall2 (fun token n =>
                int16 (b "0x" ++ token) = Return n
                /\ 0 <= n < 16 ^ Z.of_nat (length token)
                /\ ((length token <= 2)%nat -> n <= 255))
             (split (concat (chars "93 3c"))) [0x93; 0x3c].
Proof.
  split.
  - apply (proj1 (decoded_frame_values (controller 0 4) (chars "9z") live_world)
             ValueError).
    reflexivity.
  - apply (proj2 (decoded_frame_values (controller 0 4) (chars "93 3c")
                    live_world)).
    reflexivity.
Defined.

(** ** The journal only grows *)

Lemma extends_refl w : extends w w.
Proof. exists []. reflexivity. Qed.

Lemma extends_trans w1 w2 w3 : extends w1 w2 -> extends w2 w3 -> extends w1 w3.
Proof.
  intros [l1 H1] [l2 H2]. exists (l2 ++ l1).
  rewrite H2, H1. apply app_assoc.
Qed.

Lemma extends_commit c g ev w : extends w (commit c g ev w).
Proof. exists [ev]. reflexivity. Qed.

Lemma grows_ret {A} (a : A) : grows (ret a).
Proof. intros w. apply extends_refl. Qed.

Lemma grows_raise {A} e : grows (@raise world A e).
Proof. intros w. apply extends_refl. Qed.

Lemma grows_bind {A B} (m : py world A) (k : A -> py world B) :
  grows m -> (forall a, grows (k a)) -> grows (bind m k).
Proof.
  intros Hm Hk w. unfold bind. specialize (Hm w).
  destruct (m w) as [[a|e] w']; [|exact Hm].
  eapply extends_trans; [exact Hm | apply Hk].
Qed.

Lemma grows_open_gpio c : grows (open_gpio c).
Proof.
  intros w. unfold open_gpio.
  repeat case_match; apply extends_refl.
Qed.

Lemma grows_relay_set_value c v : grows (Relay.set_value c v).
Proof.
  unfold Relay.set_value, Relay._set_raw_value, read_value, write_value.
  repeat (apply grows_bind; [|intros ?]);
    try apply grows_open_gpio; try apply grows_ret.
  intros w. apply extends_commit.
Qed.

Lemma grows_set_value self value :
  grows (MIDIRelayController.set_value self value).
Proof.
  unfold MIDIRelayController.set_value.
  destruct ((value <? 0) || (value >? 7)); [apply grows_raise|].
  unfold MIDIRelayController.set_relay.
  repeat (apply grows_bind; [|intros ?]);
    (destruct (relays self !! _);
     [apply grows_relay_set_value | apply grows_raise]).
Qed.

Lemma grows_callback self byte_buffer :
  grows (MIDIRelayController._callback self byte_buffer).
Proof.
  unfold MIDIRelayController._callback, MIDIRelayController._set_note_on.
  repeat case_match;
    try apply grows_ret; try apply grows_raise; apply grows_set_value.
Qed.

Lemma loop_extends self stdout : forall n buffer w,
  extends w (snd (fst (MIDIRelayController.loop self stdout n buffer w))).
Proof.
  induction stdout as [|c rest IH]; intros n buffer w;
    cbn [MIDIRelayController.loop].
  - apply extends_refl.
  - destruct (Ascii.eqb c newline); [apply IH|].
    pose proof (grows_callback self (buffer ++ [[c]]) w) as Hcb.
    destruct (MIDIRelayController._callback self (buffer ++ [[c]]) w)
      as [[u|e] w'].
    + eapply extends_trans; [exact Hcb | apply IH].
    + exact Hcb.
Qed.

(** ** Starting the control loop *)

Lemma readline_newline pre rest :
  newline ∉ pre -> readline (pre ++ newline :: rest) = (pre ++ [newline], rest).
Proof.
  induction pre as [|c pre IH]; intros Hnl.
  - reflexivity.
  - change ((c :: pre) ++ newline :: rest) with (c :: (pre ++ newline :: rest)).
    cbn [readline].
    destruct (Ascii.eqb_spec c newline) as [->|_]; [exfalso; apply Hnl; left|].
    rewrite IH; [reflexivity|]. intros H. apply Hnl. right. exact H.
Qed.

Lemma readline_no_newline pre :
  newline ∉ pre -> readline pre = (pre, []).
Proof.
  induction pre as [|c pre IH]; intros Hnl.
  - reflexivity.
  - cbn [readline].
    destruct (Ascii.eqb_spec c newline) as [->|_]; [exfalso; apply Hnl; left|].
    rewrite IH; [reflexivity|]. intros H. apply Hnl. right. exact H.
Qed.

(** C7: [run_forever] applies the base value before it reads anything. If
    applying it raises, the exception leaves [run_forever] with the capture
    process untouched. On a constructed bank with a base value in [0,7] the
    three writes that put the bank at the base value are the first entries
    [run_forever] adds to the journal; the bank then reads back as the base
    value, and only after that is the stream read: everything the loop does
    happens in the world these writes left, and comes later in the
    journal. *)
Theorem base_value_applied_first self process w :
  (forall e w',
     MIDIRelayController.set_value self (base_value self) w = (Raise e, w') ->
     MIDIRelayController.run_forever self process w = (Raise e, w', process))
  /\ (bank_ready self w -> 0 <= base_value self <= 7 ->
      exists w1,
        MIDIRelayController.set_value self (base_value self) w = (Return tt, w1)
        /\ recombine self w1 = Return (base_value self)
        /\ (exists e2 e1 e0,
              journal w1
              = [EvValue 21 e2; EvValue 20 e1; EvValue 26 e0] ++ journal w)
        /\ MIDIRelayController.run_forever self process w
           = MIDIRelayController.loop self (snd (readline (pending process)))
               (lingering process) [] w1
        /\ extends w1
             (snd (fst (MIDIRelayController.run_forever self process w)))).
Proof.
  split.
  { intros e w' He. unfold MIDIRelayController.run_forever.
    rewrite He. reflexivity. }
  intros Hready Hbase.
  pose proof (set_value_ready self (base_value self) w Hready Hbase) as Hset.
  destruct (applied_reads_back self (base_value self) w Hready Hbase)
    as [_ Hre].
  set (w1 := applied (base_value self) w) in *.
  exists w1. split; [exact Hset|]. split; [exact Hre|].
  assert (Hrun : MIDIRelayController.run_forever self process w
          = MIDIRelayController.loop self (snd (readline (pending process)))
              (lingering process) [] w1).
  { unfold MIDIRelayController.run_forever. rewrite Hset.
    destruct (readline (pending process)). reflexivity. }
  split; [|split; [exact Hrun|]].
  - destruct (bank_usable self w Hready) as (U26 & U20 & U21). subst w1.
    do 3 eexists. apply journal_applied; assumption.
  - rewrite Hrun. apply loop_extends.
Qed.

Lemma base_value_applied_first_witness :
  exists w1,
    MIDIRelayController.set_value (controller 5 4) 5 live_world = (Return tt, w1)
    /\ recombine (controller 5 4) w1 = Return 5
    /\ (exists e2 e1 e0,
          journal w1 = [EvValue 21 e2; EvValue 20 e1; EvValue 26 e0]
                       ++ journal live_world)
    /\ MIDIRelayController.run_forever (controller 5 4)
         (Capture (b "93 3c") 1) live_world
       = MIDIRelayController.loop (controller 5 4)
           (snd (readline (b "93 3c"))) 1 [] w1
    /\ extends w1
         (snd (fst (MIDIRelayController.run_forever (controller 5 4)
                      (Capture (b "93 3c") 1) live_world))).
Proof.
  apply (proj2 (base_value_applied_first (controller 5 4)
                  (Capture (b "93 3c") 1) live_world)).
  - apply live_world_ready.
  - simpl. lia.
Defined.

(** C10: [run_forever] reads one line and drops it before the loop starts,
    so the characters before the first newline of the stream change neither
    the outcome nor the world; once the base value is applied, the run is
    the loop on what follows that newline, started on an empty buffer. A
    stream without a newline is dropped whole. *)
Theorem first_line_discarded self pre rest n w :
  newline ∉ pre ->
  fst (MIDIRelayController.run_forever self
         (Capture (pre ++ newline :: rest) n) w)
  = fst (MIDIRelayController.run_forever self (Capture (newline :: rest) n) w)
  /\ (forall w1,
        MIDIRelayController.set_value self (base_value self) w = (Return tt, w1) ->
        MIDIRelayController.run_forever self
          (Capture (pre ++ newline :: rest) n) w
        = MIDIRelayController.loop self rest n [] w1)
  /\ fst (MIDIRelayController.run_forever self (Capture pre n) w)
     = fst (MIDIRelayController.run_forever self (Capture [] n) w).
Proof.
  intros Hnl. unfold MIDIRelayController.run_forever.
  cbn [pending lingering].
  rewrite (readline_newline pre rest Hnl), (readline_no_newline pre Hnl).
  repeat split.
  - destruct (MIDIRelayController.set_value self (base_value self) w)
      as [[u|e] w']; reflexivity.
  - intros w1 ->. reflexivity.
  - destruct (MIDIRelayController.set_value self (base_value self) w)
      as [[u|e] w']; reflexivity.
Qed.

Lemma no_newline_in_header : newline ∉ b "93 3e".
Proof.
  intros H.
  repeat (inversion H as [|? ? ? H']; subst; clear H; rename H' into H).
Qed.

Lemma first_line_discarded_witness :
  fst (MIDIRelayController.run_forever (controller 0 4)
         (Capture (b "93 3e" ++ newline :: b "93 3c") 0) live_world)
  = fst (MIDIRelayController.run_forever (controller 0 4)
           (Capture (newline :: b "93 3c") 0) live_world).
Proof.
  apply (first_line_discarded (controller 0 4) (b "93 3e") (b "93 3c") 0%nat
           live_world).
  exact no_newline_in_header.
Defined.

(** ** Building the bank *)

Lemma touches_ret {A} c (a : A) : touches_only c (ret a).
Proof. intros w c' _. reflexivity. Qed.

Lemma touches_bind {A B} c (m : py world A) (k : A -> py world B) :
  touches_only c m -> (forall a, touches_only c (k a)) ->
  touches_only c (bind m k).
Proof.
  intros Hm Hk w c' Hne. unfold bind. specialize (Hm w c' Hne).
  destruct (m w) as [[a|e] w1]; [|exact Hm].
  rewrite (Hk a w1 c' Hne). exact Hm.
Qed.

Lemma touches_swallow c (m : py world unit) :
  touches_only c m -> touches_only c (swallow m).
Proof. intros Hm w c' Hne. apply Hm. exact Hne. Qed.

Lemma touches_open_gpio c : touches_only c (open_gpio c).
Proof.
  intros w c' _. unfold open_gpio. repeat case_match; reflexivity.
Qed.

Lemma touches_commit c g ev w c' :
  c <> c' -> gpios (commit c g ev w) !! c' = gpios w !! c'.
Proof. intros Hne. simpl. apply lookup_insert_ne. exact Hne. Qed.

Ltac frame_commit :=
  let w := fresh "w" in let c' := fresh "c'" in let Hne := fresh "Hne" in
  intros w c' Hne; apply touches_commit; exact Hne.

Lemma touches_write_export c : touches_only c (write_export c).
Proof.
  intros w c' Hne. unfold write_export.
  repeat case_match; try reflexivity. apply touches_commit. exact Hne.
Qed.

Lemma touches_write_unexport c : touches_only c (write_unexport c).
Proof.
  intros w c' Hne. unfold write_unexport.
  repeat case_match; try reflexivity. apply touches_commit. exact Hne.
Qed.

Lemma touches_relay_set_value c v : touches_only c (Relay.set_value c v).
Proof.
  unfold Relay.set_value, Relay._set_raw_value, read_value, write_value.
  repeat (apply touches_bind; [|intros ?]);
    try apply touches_open_gpio; try apply touches_ret.
  frame_commit.
Qed.

Lemma touches_init c : touches_only c (Relay.__init__ c).
Proof.
  unfold Relay.__init__, Relay._set_up, read_direction, write_direction.
  repeat (apply touches_bind; [|intros ?]);
    try apply touches_open_gpio; try apply touches_ret;
    try apply touches_relay_set_value.
  - apply touches_swallow, touches_write_export.
  - frame_commit.
  - frame_commit.
Qed.

Lemma touches_del r : touches_only (_channel r) (Relay.__del__ r).
Proof.
  unfold Relay.__del__, Relay._shut_down.
  apply touches_swallow, touches_bind; [apply touches_relay_set_value|].
  intros _. apply touches_swallow, touches_write_unexport.
Qed.

Lemma usable_frame c w w' :
  gpios w' !! c = gpios w !! c -> usable c w -> usable c w'.
Proof. intros H (g & Hg & He & Hp). exists g. rewrite H. auto. Qed.

Lemma released_frame c w w' :
  gpios w' !! c = gpios w !! c -> released c w -> released c w'.
Proof. intros H (g & Hg & He & Hl). exists g. rewrite H. auto. Qed.

Lemma bind_return {A B} (m : py world A) (k : A -> py world B) w y w' :
  bind m k w = (Return y, w') ->
  exists a w1, m w = (Return a, w1) /\ k a w1 = (Return y, w').
Proof.
  unfold bind. destruct (m w) as [[a|e] w1]; [|discriminate].
  intros H. exists a, w1. auto.
Qed.

Lemma set_value_return c v w w' :
  Relay.set_value c v w = (Return tt, w') -> usable c w'.
Proof.
  intros H.
  assert (U : usable c w).
  { unfold Relay.set_value, Relay._set_raw_value, read_value in H.
    apply bind_return in H as (p & w1 & H & _).
    apply bind_return in H as (raw & w2 & H & _).
    apply bind_return in H as (g & w3 & H & _).
    unfold open_gpio in H.
    destruct (gpios w !! c) as [h|] eqn:Hh; [|discriminate].
    destruct (exported h && permitted h) eqn:Hb; [|discriminate].
    apply andb_prop in Hb as [He Hp]. exists h. auto. }
  rewrite (set_value_usable c v w U) in H. injection H as <-.
  apply usable_driven. exact U.
Qed.

Lemma init_return c w r w' :
  Relay.__init__ c w = (Return r, w') -> _channel r = c /\ usable c w'.
Proof.
  intros H. unfold Relay.__init__ in H.
  apply bind_return in H as (d & w1 & H & Hr).
  injection Hr as <- <-. split; [reflexivity|].
  unfold Relay._set_up in H.
  apply bind_return in H as (u1 & w2 & _ & H).
  apply bind_return in H as (d' & w3 & _ & H).
  apply bind_return in H as (u2 & w4 & _ & H).
  apply bind_return in H as ([] & w5 & H & Hr).
  injection Hr as _ <-.
  eapply set_value_return. exact H.
Qed.

Lemma del_releases r w :
  usable (_channel r) w -> released (_channel r) (snd (Relay.__del__ r w)).
Proof.
  intros U. pose proof U as (g & Hg & He & Hp).
  unfold Relay.__del__, Relay._shut_down, swallow, bind.
  rewrite (set_value_usable _ OFF w U). cbn [snd].
  unfold write_unexport, driven. rewrite Hg. cbn [gpios commit].
  rewrite lookup_insert_eq. cbn [exported]. rewrite He. cbn [snd].
  eexists. split; [apply lookup_insert_eq|]. split; reflexivity.
Qed.

(** C8: if the constructor of one of the three relays raises after the
    relays before it were built, the construction of the bank and of the
    controller raises the same exception, so no bank is returned, and each
    relay built before the failure has been shut down: its channel is
    unexported and its value file holds OFF. *)
Theorem failed_construction_releases before failing after e w :
  PINS = before ++ failing :: after ->
  acquired before w ->
  fst (Relay.__init__ failing (acquire before w)) = Raise e ->
  exists w',
    RelayController.__init__ w = (Raise e, w')
    /\ (forall port base_value channel,
          MIDIRelayController.__init__ port base_value channel w = (Raise e, w'))
    /\ Forall (fun c => released c w') before.
Proof.
  intros Hpins Hacq Hfail.
  cut (exists w', RelayController.__init__ w = (Raise e, w')
                  /\ Forall (fun c => released c w') before).
  { intros (w' & Hinit & Hrel). exists w'. split; [exact Hinit|].
    split; [|exact Hrel]. intros port base_value channel.
    unfold MIDIRelayController.__init__, bind. rewrite Hinit. reflexivity. }
  unfold PINS in Hpins.
  unfold RelayController.__init__.
  destruct before as [|c0 [|c1 [|c2 l]]].
  - injection Hpins as <- <-. cbn [acquire] in Hfail.
    cbn [RelayController.build].
    destruct (Relay.__init__ RELAY_1_GPIO_PIN w) as [[r|e'] w1];
      [discriminate|]. injection Hfail as ->.
    eexists. split; [reflexivity | constructor].
  - injection Hpins as <- <- <-. cbn [acquire acquired] in Hfail, Hacq.
    destruct Hacq as [[r0 Hr0] _].
    cbn [RelayController.build].
    destruct (Relay.__init__ RELAY_1_GPIO_PIN w) as [[r|e'] w1] eqn:H0;
      [|discriminate]. cbn [snd] in Hfail.
    destruct (init_return _ _ _ _ H0) as [C0 U0].
    pose proof (touches_init RELAY_2_GPIO_PIN w1 RELAY_1_GPIO_PIN) as F1.
    destruct (Relay.__init__ RELAY_2_GPIO_PIN w1) as [[r'|e'] w2];
      [discriminate|]. injection Hfail as ->.
    eexists. split; [reflexivity|].
    constructor; [|constructor].
    unfold RelayController.finalize, bind, ret.
    destruct (Relay.__del__ r w2) as [[u|e'] w3] eqn:Hd; cbn [snd].
    + replace w3 with (snd (Relay.__del__ r w2)) by (rewrite Hd; reflexivity).
      rewrite <- C0. apply del_releases. rewrite C0.
      eapply usable_frame; [apply F1; discriminate | exact U0].
    + discriminate Hd.
  - injection Hpins as <- <- <- <-. cbn [acquire acquired] in Hfail, Hacq.
    cbn [RelayController.build].
    destruct (Relay.__init__ RELAY_1_GPIO_PIN w) as [[r0|e'] w1] eqn:H0;
      [|destruct Hacq as [[? [=]] _]]. cbn [snd] in Hfail, Hacq.
    destruct (init_return _ _ _ _ H0) as [C0 U0].
    pose proof (touches_init RELAY_2_GPIO_PIN w1 RELAY_1_GPIO_PIN) as F1.
    destruct (Relay.__init__ RELAY_2_GPIO_PIN w1) as [[r1|e'] w2] eqn:H1;
      [|destruct Hacq as (_ & [? [=]] & _)]. cbn [snd] in Hfail, F1.
    destruct (init_return _ _ _ _ H1) as [C1 U1].
    pose proof (touches_init RELAY_3_GPIO_PIN w2 RELAY_1_GPIO_PIN) as F20.
    pose proof (touches_init RELAY_3_GPIO_PIN w2 RELAY_2_GPIO_PIN) as F21.
    destruct (Relay.__init__ RELAY_3_GPIO_PIN w2) as [[r2|e'] w3];
      [discriminate|]. injection Hfail as ->. cbn [snd] in F20, F21.
    assert (U0' : usable (_channel r0) w3).
    { rewrite C0. eapply usable_frame; [apply F20; discriminate|].
      eapply usable_frame; [apply F1; discriminate | exact U0]. }
    assert (U1' : usable (_channel r1) w3).
    { rewrite C1. eapply usable_frame; [apply F21; discriminate | exact U1]. }
    eexists. split; [reflexivity|].
    unfold RelayController.finalize, bind, ret.
    pose proof (del_releases r1 w3 U1') as R1.
    pose proof (touches_del r1 w3 (_channel r0)) as G1.
    destruct (Relay.__del__ r1 w3) as [[u|e'] w4] eqn:Hd1; [|discriminate Hd1].
    cbn [snd] in R1, G1.
    assert (U0'' : usable (_channel r0) w4).
    { eapply usable_frame; [apply G1; rewrite C0, C1; discriminate | exact U0']. }
    pose proof (del_releases r0 w4 U0'') as R0.
    pose proof (touches_del r0 w4 (_channel r1)) as G0.
    destruct (Relay.__del__ r0 w4) as [[u'|e'] w5] eqn:Hd0; [|discriminate Hd0].
    cbn [snd] in R0, G0 |- *.
    rewrite C0 in R0. rewrite C1 in R1.
    constructor; [exact R0|]. constructor; [|constructor].
    eapply released_frame; [|exact R1].
    rewrite <- C1. apply G0. rewrite C0, C1. discriminate.
  - exfalso. injection Hpins as _ _ _ Hl.
    destruct l; discriminate Hl.
Qed.

Lemma failed_construction_releases_witness :
  exists w',
    RelayController.__init__ broken_world = (Raise OSError, w')
    /\ (forall port base_value channel,
          MIDIRelayController.__init__ port base_value channel broken_world
          = (Raise OSError, w'))
    /\ Forall (fun c => released c w') [26; 20].
Proof.
  apply (failed_construction_releases [26; 20] 21 [] OSError broken_world).
  - reflexivity.
  - split; [eexists; vm_compute; reflexivity|].
    split; [eexists; vm_compute; reflexivity|]. exact I.
  - vm_compute. reflexivity.
Defined.

Example construction_returns_three_relays :
  fst (RelayController.__init__ idle_world)
  = Return [MkRelay 26 (b "in"); MkRelay 20 (b "in"); MkRelay 21 (b "in")].
Proof. vm_compute. reflexivity. Qed.

(** A controller whose constructor returned is a constructed bank: the
    hypothesis of the statements about [set_value], [toggle] and
    [run_forever] is what the constructor establishes. *)
Lemma construction_ready port base ch w self w' :
  MIDIRelayController.__init__ port base ch w = (Return self, w') ->
  bank_ready self w'.
Proof.
  intros H. unfold MIDIRelayController.__init__ in H.
  apply bind_return in H as (rs & w1 & H & Hret).
  injection Hret as <- <-.
  unfold RelayController.__init__ in H. cbn [RelayController.build] in H.
  destruct (Relay.__init__ RELAY_1_GPIO_PIN w) as [[r0|e] wa] eqn:H0;
    [|discriminate].
  destruct (init_return _ _ _ _ H0) as [C0 U0].
  pose proof (touches_init RELAY_2_GPIO_PIN wa RELAY_1_GPIO_PIN) as F1.
  destruct (Relay.__init__ RELAY_2_GPIO_PIN wa) as [[r1|e] wb] eqn:H1;
    [|discriminate].
  destruct (init_return _ _ _ _ H1) as [C1 U1].
  pose proof (touches_init RELAY_3_GPIO_PIN wb RELAY_1_GPIO_PIN) as F20.
  pose proof (touches_init RELAY_3_GPIO_PIN wb RELAY_2_GPIO_PIN) as F21.
  destruct (Relay.__init__ RELAY_3_GPIO_PIN wb) as [[r2|e] wc] eqn:H2;
    [|discriminate].
  destruct (init_return _ _ _ _ H2) as [C2 U2].
  cbn [snd] in F1, F20, F21.
  injection H as <- <-.
  split.
  - cbn [relays rev app map]. rewrite C0, C1, C2. reflexivity.
  - unfold PINS. repeat constructor.
    + eapply usable_frame; [apply F20; discriminate|].
      eapply usable_frame; [apply F1; discriminate | exact U0].
    + eapply usable_frame; [apply F21; discriminate | exact U1].
    + exact U2.
Qed.

(** * Further properties of the code *)

(** ** The encoding of values *)

Lemma lstrip_spaces ws t :
  Forall (fun c => Py_ISSPACE c = true) ws -> lstrip (ws ++ t) = lstrip t.
Proof.
  induction 1 as [|c ws Hc _ IH]; [reflexivity|].
  cbn [app lstrip]. rewrite Hc. exact IH.
Qed.

Lemma rstrip_trailing raw ws :
  Forall (fun c => Py_ISSPACE c = true) ws -> rstrip (raw ++ ws) = rstrip raw.
Proof.
  intros H. unfold rstrip. rewrite rev_app_distr.
  rewrite lstrip_spaces; [reflexivity|].
  apply List.Forall_rev. exact H.
Qed.

(** X1: decoding an encoded value gives the value back; trailing whitespace
    of the file content is ignored; a content that decodes is, once
    stripped, the encoding of the value it decodes to; every other content
    raises [ValueError]. *)
Theorem raw_value_roundtrip (w : world) :
  (forall v, Relay._raw_value_to_value (Relay._value_to_raw_value v) w
             = (Return v, w))
  /\ (forall raw ws,
        Forall (fun c => Py_ISSPACE c = true) ws ->
        Relay._raw_value_to_value (raw ++ ws) w
        = Relay._raw_value_to_value raw w)
  /\ (forall raw v w',
        Relay._raw_value_to_value raw w = (Return v, w') ->
        rstrip raw = Relay._value_to_raw_value v /\ w' = w)
  /\ (forall raw,
        rstrip raw <> Relay._ON_VALUE -> rstrip raw <> Relay._OFF_VALUE ->
        Relay._raw_value_to_value raw w = (Raise ValueError, w)).
Proof.
  repeat split.
  - intros v. rewrite value_roundtrip. reflexivity.
  - intros raw ws Hws. unfold Relay._raw_value_to_value.
    rewrite (rstrip_trailing raw ws Hws). reflexivity.
  - revert H. unfold Relay._raw_value_to_value, bytes_eqb.
    repeat case_bool_decide; unfold ret, raise; intros [= <- <-];
      assumption.
  - revert H. unfold Relay._raw_value_to_value, bytes_eqb.
    repeat case_bool_decide; unfold ret, raise; intros [= <- <-];
      reflexivity.
  - intros raw Hon Hoff. unfold Relay._raw_value_to_value, bytes_eqb.
    rewrite !bool_decide_eq_false_2 by assumption. reflexivity.
Qed.

Lemma raw_value_roundtrip_witness :
  Relay._raw_value_to_value (b "1" ++ [newline]) live_world
    = Relay._raw_value_to_value (b "1") live_world
  /\ rstrip (b "0 ") = Relay._value_to_raw_value ON
  /\ Relay._raw_value_to_value (b "high") live_world
     = (Raise ValueError, live_world).
Proof.
  destruct (raw_value_roundtrip live_world) as (_ & Hws & Hdec & Hbad).
  split; [|split].
  - apply Hws. repeat constructor.
  - apply (Hdec (b "0 ") ON live_world). reflexivity.
  - apply Hbad; discriminate.
Defined.

(** ** A relay whose channel cannot be used *)

Lemma open_gpio_unusable c w :
  ~ usable c w -> open_gpio c w = (Raise OSError, w).
Proof.
  intros H. unfold open_gpio.
  destruct (gpios w !! c) as [g|] eqn:Hg; [|reflexivity].
  destruct (exported g) eqn:He, (permitted g) eqn:Hp; try reflexivity.
  exfalso. apply H. exists g. auto.
Qed.

Lemma set_value_unusable c v w :
  ~ usable c w -> Relay.set_value c v w = (Raise OSError, w).
Proof.
  intros H.
  unfold Relay.set_value, Relay._set_raw_value, read_value, bind.
  rewrite (open_gpio_unusable c w H). reflexivity.
Qed.

(** X2: on a channel that is not exported, or whose files cannot be opened,
    reading, writing and toggling raise [OSError] and change nothing. *)
Theorem relay_unusable c w :
  ~ usable c w ->
  Relay.value c w = (Raise OSError, w)
  /\ (forall v, Relay.set_value c v w = (Raise OSError, w))
  /\ Relay.toggle c w = (Raise OSError, w).
Proof.
  intros H.
  assert (Hv : Relay.value c w = (Raise OSError, w)).
  { unfold Relay.value, read_value, bind.
    rewrite (open_gpio_unusable c w H). reflexivity. }
  split; [exact Hv|]. split.
  - intros v. apply set_value_unusable. exact H.
  - unfold Relay.toggle, bind. rewrite Hv. reflexivity.
Qed.

Lemma channel_5_unusable : ~ usable 5 live_world.
Proof. intros (g & Hg & _). vm_compute in Hg. discriminate Hg. Qed.

Lemma relay_unusable_witness :
  Relay.value 5 live_world = (Raise OSError, live_world)
  /\ (forall v, Relay.set_value 5 v live_world = (Raise OSError, live_world))
  /\ Relay.toggle 5 live_world = (Raise OSError, live_world).
Proof. apply (relay_unusable 5 live_world). exact channel_5_unusable. Defined.

(** X3: when the value file holds something that is neither ON nor OFF,
    reading and toggling raise [ValueError] and write nothing, while a plain
    write still goes through: the setter reads the old content without
    decoding it. *)
Theorem unreadable_value c g w :
  gpios w !! c = Some g -> exported g = true -> permitted g = true ->
  rstrip (level g) <> Relay._ON_VALUE -> rstrip (level g) <> Relay._OFF_VALUE ->
  Relay.value c w = (Raise ValueError, w)
  /\ Relay.toggle c w = (Raise ValueError, w)
  /\ forall v, Relay.set_value c v w = (Return tt, driven c v w)
               /\ reading c (driven c v w) = Return v.
Proof.
  intros Hg He Hp Hon Hoff.
  assert (U : usable c w) by (exists g; auto).
  assert (Hv : Relay.value c w = (Raise ValueError, w)).
  { unfold Relay.value, read_value, bind, ret.
    rewrite (open_gpio_usable c w g Hg He Hp).
    unfold Relay._raw_value_to_value, bytes_eqb.
    rewrite !bool_decide_eq_false_2 by assumption. reflexivity. }
  split; [exact Hv|]. split.
  - unfold Relay.toggle, bind. rewrite Hv. reflexivity.
  - intros v. split; [apply set_value_usable | apply reading_driven_same];
      exact U.
Qed.

Lemma unreadable_value_witness :
  let w := World {[ 26 := Gpio true true (b "out") (b "x") ]} [] in
  Relay.value 26 w = (Raise ValueError, w)
  /\ Relay.toggle 26 w = (Raise ValueError, w)
  /\ forall v, Relay.set_value 26 v w = (Return tt, driven 26 v w)
               /\ reading 26 (driven 26 v w) = Return v.
Proof.
  intros w.
  apply (unreadable_value 26 (Gpio true true (b "out") (b "x")) w);
    try reflexivity; discriminate.
Defined.

(** ** Toggling twice *)

Lemma negate_involutive v : negate (negate v) = v.
Proof. destruct v; reflexivity. Qed.

(** X4: toggling a relay twice returns the inverted and then the original
    value, the relay reads as before, no other pin has changed, and exactly
    two writes went to its value file. *)
Theorem toggle_twice c v w :
  usable c w -> reading c w = Return v ->
  exists w1 w2,
    Relay.toggle c w = (Return (negate v), w1)
    /\ Relay.toggle c w1 = (Return v, w2)
    /\ reading c w2 = Return v
    /\ (forall c', c <> c' -> gpios w2 !! c' = gpios w !! c')
    /\ journal w2 = [EvValue c (Relay._value_to_raw_value v);
                     EvValue c (Relay._value_to_raw_value (negate v))]
                    ++ journal w.
Proof.
  intros U R.
  pose proof (usable_driven c c (negate v) w U) as U1.
  pose proof (reading_driven_same c (negate v) w U) as R1.
  exists (driven c (negate v) w), (driven c v (driven c (negate v) w)).
  split; [apply toggle_usable; assumption|]. split.
  - rewrite (toggle_usable c (negate v) _ U1 R1), negate_involutive.
    reflexivity.
  - split; [apply reading_driven_same; exact U1|]. split.
    + intros c' Hne. rewrite !driven_frame by assumption. reflexivity.
    + rewrite journal_driven by exact U1. rewrite journal_driven by exact U.
      reflexivity.
Qed.

Lemma usable_26_live : usable 26 live_world.
Proof. exists live_pin. repeat split; reflexivity. Qed.

Lemma toggle_twice_witness :
  exists w1 w2,
    Relay.toggle 26 live_world = (Return ON, w1)
    /\ Relay.toggle 26 w1 = (Return OFF, w2)
    /\ reading 26 w2 = Return OFF
    /\ (forall c', 26 <> c' -> gpios w2 !! c' = gpios live_world !! c')
    /\ journal w2 = [EvValue 26 (Relay._value_to_raw_value OFF);
                     EvValue 26 (Relay._value_to_raw_value ON)]
                    ++ journal live_world.
Proof.
  apply (toggle_twice 26 OFF live_world).
  - exact usable_26_live.
  - reflexivity.
Defined.

(** ** The life cycle of a relay *)

Lemma bind_ok {A B} (m : py world A) (k : A -> py world B) w a w1 :
  m w = (Return a, w1) -> bind m k w = k a w1.
Proof. intros H. unfold bind. rewrite H. reflexivity. Qed.

Lemma bind_fails {A B} (m : py world A) (k : A -> py world B) w e w1 :
  m w = (Raise e, w1) -> bind m k w = (Raise e, w1).
Proof. intros H. unfold bind. rewrite H. reflexivity. Qed.

Lemma export_result c g w :
  gpios w !! c = Some g ->
  gpios (snd (write_export c w))
    = <[c := Gpio true (permitted g) (direction g) (level g)]> (gpios w)
  /\ journal (snd (write_export c w))
     = (if exported g then [] else [EvExport c]) ++ journal w.
Proof.
  intros Hg. unfold write_export. rewrite Hg.
  destruct (exported g) eqn:He; cbn [snd]; [|split; reflexivity].
  split; [|reflexivity].
  symmetry. apply insert_id. rewrite Hg. f_equal.
  destruct g; cbn in *; congruence.
Qed.

Lemma write_direction_usable c g raw w :
  gpios w !! c = Some g -> exported g = true -> permitted g = true ->
  write_direction c raw w
  = (Return tt, commit c (Gpio true true raw (level g)) (EvDirection c raw) w).
Proof.
  intros Hg He Hp. unfold write_direction.
  rewrite (bind_ok _ _ w g w) by (apply open_gpio_usable; assumption).
  rewrite He, Hp. reflexivity.
Qed.

Lemma init_available c g w :
  gpios w !! c = Some g -> permitted g = true ->
  Relay.__init__ c w =
    (Return (MkRelay c (direction g)),
     World (<[c := Gpio true true Relay.DIRECTION Relay._OFF_VALUE]> (gpios w))
           ([EvValue c Relay._OFF_VALUE; EvDirection c Relay.DIRECTION]
            ++ (if exported g then [] else [EvExport c]) ++ journal w)).
Proof.
  intros Hg Hp.
  destruct (export_result c g w Hg) as [G1 J1]. rewrite Hp in G1.
  set (w1 := snd (write_export c w)) in *.
  set (g1 := Gpio true true (direction g) (level g)) in *.
  assert (L1 : gpios w1 !! c = Some g1) by (rewrite G1; apply lookup_insert_eq).
  set (g2 := Gpio true true Relay.DIRECTION (level g)).
  set (w2 := commit c g2 (EvDirection c Relay.DIRECTION) w1).
  assert (L2 : gpios w2 !! c = Some g2) by apply lookup_insert_eq.
  assert (U2 : usable c w2) by (exists g2; auto).
  unfold Relay.__init__, Relay._set_up.
  rewrite (bind_ok _ _ w (direction g) (driven c OFF w2)).
  - unfold ret. f_equal. unfold driven. rewrite L2. unfold commit.
    cbn [gpios journal exported permitted direction]. subst w2. unfold commit.
    cbn [gpios journal]. rewrite G1, J1, !insert_insert_eq. reflexivity.
  - rewrite (bind_ok _ _ w tt w1) by reflexivity.
    rewrite (bind_ok _ _ w1 (direction g) w1).
    + rewrite (bind_ok _ _ w1 tt w2)
        by (apply (write_direction_usable c g1); auto).
      rewrite (bind_ok _ _ w2 tt (driven c OFF w2))
        by (apply set_value_usable; exact U2).
      reflexivity.
    + unfold read_direction.
      rewrite (bind_ok _ _ w1 g1 w1) by (apply open_gpio_usable; auto).
      reflexivity.
Qed.

(** X5: the constructor of a relay succeeds on every channel that exists
    and whose files can be opened, whether or not the channel is exported
    already. It records the direction found, and leaves the channel
    exported, configured as an output and OFF; the export is journaled only
    when it took place. *)
Theorem relay_constructor c g w :
  gpios w !! c = Some g -> permitted g = true ->
  exists w',
    Relay.__init__ c w = (Return (MkRelay c (direction g)), w')
    /\ gpios w' = <[c := Gpio true true Relay.DIRECTION Relay._OFF_VALUE]> (gpios w)
    /\ reading c w' = Return OFF
    /\ journal w' = [EvValue c Relay._OFF_VALUE; EvDirection c Relay.DIRECTION]
                    ++ (if exported g then [] else [EvExport c]) ++ journal w.
Proof.
  intros Hg Hp. eexists. split; [apply init_available; eassumption|].
  split; [reflexivity|]. split; [|reflexivity].
  unfold reading, Relay.value, read_value, bind, ret, open_gpio.
  cbn [gpios]. rewrite lookup_insert_eq. reflexivity.
Qed.

Lemma relay_constructor_witness :
  exists w',
    Relay.__init__ 20 broken_world = (Return (MkRelay 20 (b "in")), w')
    /\ gpios w' = <[20 := Gpio true true Relay.DIRECTION Relay._OFF_VALUE]>
                    (gpios broken_world)
    /\ reading 20 w' = Return OFF
    /\ journal w' = [EvValue 20 Relay._OFF_VALUE; EvDirection 20 Relay.DIRECTION]
                    ++ journal broken_world.
Proof.
  apply (relay_constructor 20 (Gpio true true (b "in") (b "0")) broken_world);
    reflexivity.
Defined.

(** X6: the constructor raises [OSError] on a channel that does not exist,
    without any effect, and on a channel whose files cannot be opened; in
    the second case the export has happened and is not undone: the channel
    is left exported. *)
Theorem relay_constructor_fails c w :
  (gpios w !! c = None -> Relay.__init__ c w = (Raise OSError, w))
  /\ (forall g,
        gpios w !! c = Some g -> permitted g = false ->
        exists w',
          Relay.__init__ c w = (Raise OSError, w')
          /\ gpios w' !! c = Some (Gpio true false (direction g) (level g))
          /\ forall c', c <> c' -> gpios w' !! c' = gpios w !! c').
Proof.
  split.
  - intros Hg.
    assert (Hw : snd (write_export c w) = w)
      by (unfold write_export; rewrite Hg; reflexivity).
    unfold Relay.__init__, Relay._set_up.
    apply bind_fails. rewrite (bind_ok _ _ w tt w)
      by (unfold swallow; rewrite Hw; reflexivity).
    apply bind_fails. unfold read_direction. apply bind_fails.
    apply open_gpio_unusable. intros (g & Hg' & _). congruence.
  - intros g Hg Hp.
    destruct (export_result c g w Hg) as [G1 _]. rewrite Hp in G1.
    set (w1 := snd (write_export c w)) in *.
    exists w1. split; [|split].
    + unfold Relay.__init__, Relay._set_up.
      apply bind_fails. rewrite (bind_ok _ _ w tt w1) by reflexivity.
      apply bind_fails. unfold read_direction. apply bind_fails.
      apply open_gpio_unusable. intros (h & Hh & _ & Hph).
      rewrite G1, lookup_insert_eq in Hh. injection Hh as <-.
      discriminate Hph.
    + rewrite G1. apply lookup_insert_eq.
    + intros c' Hne. rewrite G1. apply lookup_insert_ne. exact Hne.
Qed.

Lemma relay_constructor_fails_witness :
  Relay.__init__ 21 broken_world = (Raise OSError, broken_world)
  /\ exists w',
       Relay.__init__ 7 (World {[ 7 := Gpio false false (b "in") (b "0") ]} [])
       = (Raise OSError, w')
       /\ gpios w' !! 7 = Some (Gpio true false (b "in") (b "0")).
Proof.
  split.
  - apply (proj1 (relay_constructor_fails 21 broken_world)). reflexivity.
  - destruct (proj2 (relay_constructor_fails 7
                       (World {[ 7 := Gpio false false (b "in") (b "0") ]} []))
                (Gpio false false (b "in") (b "0")))
      as (w' & Hinit & Hpin & _);
      [vm_compute; reflexivity | reflexivity |].
    exists w'. split; assumption.
Defined.

Lemma del_usable r g w :
  gpios w !! _channel r = Some g -> exported g = true -> permitted g = true ->
  Relay.__del__ r w
  = (Return tt,
     World (<[_channel r := Gpio false true (direction g) Relay._OFF_VALUE]>
              (gpios w))
           ([EvUnexport (_channel r); EvValue (_channel r) Relay._OFF_VALUE]
            ++ journal w)).
Proof.
  intros Hg He Hp.
  assert (U : usable (_channel r) w) by (exists g; auto).
  unfold Relay.__del__, Relay._shut_down, swallow.
  rewrite (bind_ok _ _ w tt (driven (_channel r) OFF w))
    by (apply set_value_usable; exact U).
  unfold swallow, write_unexport, driven. rewrite Hg. unfold commit.
  cbn [gpios journal snd]. rewrite lookup_insert_eq.
  cbn [exported permitted direction level]. rewrite He, Hp. cbn [snd].
  cbn [gpios journal]. rewrite insert_insert_eq. reflexivity.
Qed.

(** X7: a relay that is built and then finalised leaves its channel
    unexported and OFF, with the direction still set to output: the
    direction recorded by the constructor is never written back, and the
    finaliser writes the value file and the unexport file only. *)
Theorem relay_life_cycle c g w :
  gpios w !! c = Some g -> permitted g = true ->
  exists r w1 w2,
    Relay.__init__ c w = (Return r, w1)
    /\ _original_direction r = direction g
    /\ Relay.__del__ r w1 = (Return tt, w2)
    /\ gpios w2 = <[c := Gpio false true Relay.DIRECTION Relay._OFF_VALUE]> (gpios w)
    /\ journal w2 = [EvUnexport c; EvValue c Relay._OFF_VALUE] ++ journal w1.
Proof.
  intros Hg Hp. do 3 eexists.
  split; [apply init_available; eassumption|].
  split; [reflexivity|].
  split.
  - apply (del_usable (MkRelay c (direction g))
             (Gpio true true Relay.DIRECTION Relay._OFF_VALUE));
      [apply lookup_insert_eq | reflexivity | reflexivity].
  - cbn [_channel gpios journal direction].
    rewrite insert_insert_eq. split; reflexivity.
Qed.

Lemma relay_life_cycle_witness :
  exists r w1 w2,
    Relay.__init__ 26 idle_world = (Return r, w1)
    /\ _original_direction r = b "in"
    /\ Relay.__del__ r w1 = (Return tt, w2)
    /\ gpios w2 = <[26 := Gpio false true Relay.DIRECTION Relay._OFF_VALUE]>
                    (gpios idle_world)
    /\ journal w2 = [EvUnexport 26; EvValue 26 Relay._OFF_VALUE] ++ journal w1.
Proof.
  apply (relay_life_cycle 26 idle_pin idle_world); reflexivity.
Defined.

(** X8: when the value file of a relay cannot be written, its finaliser
    returns without any effect: the write of OFF is outside the [try], so
    the unexport is skipped and a channel that was exported stays so. *)
Theorem finaliser_skips_unexport r w :
  ~ usable (_channel r) w -> Relay.__del__ r w = (Return tt, w).
Proof.
  intros H. unfold Relay.__del__, Relay._shut_down, swallow, bind.
  rewrite (set_value_unusable _ OFF w H). reflexivity.
Qed.

Lemma finaliser_skips_unexport_witness :
  let w := World {[ 26 := Gpio true false (b "out") (b "0") ]} [] in
  Relay.__del__ (MkRelay 26 (b "in")) w = (Return tt, w).
Proof.
  intros w. apply (finaliser_skips_unexport (MkRelay 26 (b "in")) w).
  intros (g & Hg & _ & Hp). vm_compute in Hg. injection Hg as <-.
  discriminate Hp.
Defined.

(** ** Building the bank: the successful case *)

Lemma init_returns_available c w r w' :
  Relay.__init__ c w = (Return r, w') -> available c w.
Proof.
  intros H. destruct (gpios w !! c) as [g|] eqn:Hg.
  - destruct (permitted g) eqn:Hp; [exists g; auto|].
    exfalso.
    destruct (export_result c g w Hg) as [G1 _]. rewrite Hp in G1.
    unfold Relay.__init__, Relay._set_up in H.
    apply bind_return in H as (d & w1 & H & _).
    apply bind_return in H as (u & w2 & Hex & H).
    apply bind_return in H as (d' & w3 & H & _).
    unfold read_direction in H. apply bind_return in H as (h & w4 & H & _).
    unfold swallow in Hex. injection Hex as _ Hw2. subst w2.
    unfold open_gpio in H. rewrite G1, lookup_insert_eq in H.
    cbn [exported permitted andb] in H. discriminate H.
  - exfalso.
    unfold Relay.__init__, Relay._set_up in H.
    apply bind_return in H as (d & w1 & H & _).
    apply bind_return in H as (u & w2 & Hex & H).
    apply bind_return in H as (d' & w3 & H & _).
    unfold read_direction in H. apply bind_return in H as (h & w4 & H & _).
    unfold swallow, write_export in Hex. rewrite Hg in Hex.
    injection Hex as _ Hw2. subst w2.
    unfold open_gpio in H. rewrite Hg in H. discriminate H.
Qed.

Lemma available_frame c w w' :
  gpios w' !! c = gpios w !! c -> available c w -> available c w'.
Proof. intros H (g & Hg & Hp). exists g. rewrite H. auto. Qed.

(** X9: the bank is built exactly when each of the channels 26, 20 and 21
    exists and its files can be opened. The relays are then in this order,
    the three pins are exported outputs at OFF, no other pin has changed,
    and the bank reads back as the bitmask 0. *)
Theorem bank_construction w :
  ((exists rs w', RelayController.__init__ w = (Return rs, w'))
   <-> Forall (fun c => available c w) PINS)
  /\ (forall rs w',
        RelayController.__init__ w = (Return rs, w') ->
        map _channel rs = PINS
        /\ gpios w' = <[21 := fresh_pin]> (<[20 := fresh_pin]>
                        (<[26 := fresh_pin]> (gpios w)))
        /\ forall port base ch,
             recombine (MkController rs port base ch) w' = Return 0).
Proof.
  assert (Hbuild : Forall (fun c => available c w) PINS ->
    exists d0 d1 d2 j,
      RelayController.__init__ w
      = (Return [MkRelay 26 d0; MkRelay 20 d1; MkRelay 21 d2],
         World (<[21 := fresh_pin]> (<[20 := fresh_pin]>
                  (<[26 := fresh_pin]> (gpios w)))) j)).
  { intros Hall. unfold PINS in Hall.
    inversion Hall as [|? ? (g0 & L0 & P0) Hall1]; subst.
    inversion Hall1 as [|? ? (g1 & L1 & P1) Hall2]; subst.
    inversion Hall2 as [|? ? (g2 & L2 & P2) _]; subst.
    unfold RelayController.__init__. cbn [RelayController.build].
    unfold RELAY_1_GPIO_PIN, RELAY_2_GPIO_PIN, RELAY_3_GPIO_PIN in *.
    rewrite (init_available 26 g0 w L0 P0).
    erewrite (init_available 20 g1);
      [| cbn [gpios]; rewrite lookup_insert_ne by discriminate; exact L1
       | exact P1].
    erewrite (init_available 21 g2);
      [| cbn [gpios]; rewrite !lookup_insert_ne by discriminate; exact L2
       | exact P2].
    do 4 eexists. reflexivity. }
  assert (Hconv : forall rs w',
    RelayController.__init__ w = (Return rs, w') ->
    Forall (fun c => available c w) PINS).
  { intros rs w' H. unfold RelayController.__init__ in H.
    cbn [RelayController.build] in H.
    pose proof (touches_init RELAY_1_GPIO_PIN w) as F0.
    destruct (Relay.__init__ RELAY_1_GPIO_PIN w) as [[r0|e] wa] eqn:H0;
      [|discriminate].
    pose proof (touches_init RELAY_2_GPIO_PIN wa) as F1.
    destruct (Relay.__init__ RELAY_2_GPIO_PIN wa) as [[r1|e] wb] eqn:H1;
      [|discriminate].
    destruct (Relay.__init__ RELAY_3_GPIO_PIN wb) as [[r2|e] wc] eqn:H2;
      [|discriminate].
    cbn [snd] in F0, F1.
    apply init_returns_available in H0, H1, H2.
    unfold PINS. repeat constructor.
    - exact H0.
    - eapply available_frame; [symmetry; apply F0; discriminate | exact H1].
    - eapply available_frame; [symmetry; apply F0; discriminate|].
      eapply available_frame; [symmetry; apply F1; discriminate | exact H2]. }
  split.
  - split.
    + intros (rs & w' & H). eapply Hconv. exact H.
    + intros Hall. destruct (Hbuild Hall) as (d0 & d1 & d2 & j & H). eauto.
  - intros rs w' H.
    destruct (Hbuild (Hconv rs w' H)) as (d0 & d1 & d2 & j & H').
    rewrite H' in H. injection H as <- <-.
    split; [reflexivity|]. split; [reflexivity|].
    intros port base ch.
    unfold recombine, output, reading, Relay.value, read_value, bind, ret,
      open_gpio.
    cbn [relays gpios _channel].
    change ([MkRelay 26 d0; MkRelay 20 d1; MkRelay 21 d2] !! 0%nat)
      with (Some (MkRelay 26 d0)).
    change ([MkRelay 26 d0; MkRelay 20 d1; MkRelay 21 d2] !! 1%nat)
      with (Some (MkRelay 20 d1)).
    change ([MkRelay 26 d0; MkRelay 20 d1; MkRelay 21 d2] !! 2%nat)
      with (Some (MkRelay 21 d2)).
    cbn [_channel].
    rewrite lookup_insert_eq.
    rewrite (lookup_insert_ne _ 21 20), lookup_insert_eq by discriminate.
    rewrite (lookup_insert_ne _ 21 26), (lookup_insert_ne _ 20 26),
      lookup_insert_eq by discriminate.
    reflexivity.
Qed.

Lemma idle_world_available : Forall (fun c => available c idle_world) PINS.
Proof. repeat constructor; exists idle_pin; split; reflexivity. Qed.

Lemma bank_construction_witness :
  exists rs w', RelayController.__init__ idle_world = (Return rs, w').
Proof.
  apply (proj2 (proj1 (bank_construction idle_world))).
  exact idle_world_available.
Defined.

(** ** Applying a bitmask: failures and overwriting *)

Lemma unusable_driven c c' v w :
  c <> c' -> ~ usable c' w -> ~ usable c' (driven c v w).
Proof.
  intros Hne H U. apply H.
  eapply usable_frame; [|exact U]. symmetry. apply driven_frame. exact Hne.
Qed.

(** X10: [set_value] writes the relays in index order and stops at the first
    one that cannot be written: it raises [OSError], the relays before it
    have their new value, the ones after it are not written at all. *)
Theorem set_value_stops_at_failure self value w :
  map _channel (relays self) = PINS -> 0 <= value <= 7 ->
  (~ usable 26 w ->
   MIDIRelayController.set_value self value w = (Raise OSError, w))
  /\ (usable 26 w -> ~ usable 20 w ->
      MIDIRelayController.set_value self value w
      = (Raise OSError, driven 26 (on_if (truthy (Z.land value 0x01))) w))
  /\ (usable 26 w -> usable 20 w -> ~ usable 21 w ->
      MIDIRelayController.set_value self value w
      = (Raise OSError,
         driven 20 (on_if (truthy (Z.land value 0x02)))
           (driven 26 (on_if (truthy (Z.land value 0x01))) w))).
Proof.
  intros Hch Hrange.
  destruct (bank_relays self Hch) as (r0 & r1 & r2 & Hr & C0 & C1 & C2).
  unfold MIDIRelayController.set_value.
  replace ((value <? 0) || (value >? 7)) with false by lia.
  unfold MIDIRelayController.set_relay. rewrite Hr.
  change ([r0; r1; r2] !! 0%nat) with (Some r0).
  change ([r0; r1; r2] !! 1%nat) with (Some r1).
  change ([r0; r1; r2] !! 2%nat) with (Some r2).
  cbv beta iota. rewrite C0, C1, C2.
  repeat split.
  - intros N0. apply bind_fails. apply set_value_unusable. exact N0.
  - intros U0 N1.
    rewrite (bind_ok _ _ w tt _ (set_value_usable 26 _ w U0)).
    apply bind_fails. apply set_value_unusable.
    apply unusable_driven; [discriminate | exact N1].
  - intros U0 U1 N2.
    rewrite (bind_ok _ _ w tt _ (set_value_usable 26 _ w U0)).
    rewrite (bind_ok _ _ _ tt _
               (set_value_usable 20 _ _ (usable_driven 26 20 _ w U1))).
    apply set_value_unusable.
    do 2 (apply unusable_driven; [discriminate|]). exact N2.
Qed.

Lemma set_value_stops_at_failure_witness :
  MIDIRelayController.set_value (controller 0 4) 7 broken_world
  = (Raise OSError, broken_world)
  /\ MIDIRelayController.set_value (controller 0 4) 7
       (World (list_to_map [(26, live_pin); (21, live_pin)]) [])
     = (Raise OSError,
        driven 26 ON (World (list_to_map [(26, live_pin); (21, live_pin)]) [])).
Proof.
  split.
  - apply (proj1 (set_value_stops_at_failure (controller 0 4) 7 broken_world
                    eq_refl ltac:(lia))).
    intros (g & Hg & He & _). vm_compute in Hg. injection Hg as <-.
    discriminate He.
  - apply (proj1 (proj2 (set_value_stops_at_failure (controller 0 4) 7
                           (World (list_to_map [(26, live_pin); (21, live_pin)]) [])
                           eq_refl ltac:(lia)))).
    + exists live_pin. repeat split; reflexivity.
    + intros (g & Hg & _). vm_compute in Hg. discriminate Hg.
Defined.

Lemma driven_lookup c c' v w :
  gpios (driven c v w) !! c' =
    if decide (c = c')
    then (fun g => Gpio (exported g) (permitted g) (direction g)
                        (Relay._value_to_raw_value v)) <$> gpios w !! c
    else gpios w !! c'.
Proof.
  unfold driven. destruct (gpios w !! c) as [g|] eqn:Hg.
  - cbn [commit gpios]. rewrite lookup_insert. destruct (decide (c = c'));
      reflexivity.
  - destruct (decide (c = c')) as [<-|]; [rewrite Hg|]; reflexivity.
Qed.

Lemma applied_overwrites m1 m2 w :
  gpios (applied m2 (applied m1 w)) = gpios (applied m2 w).
Proof.
  apply map_eq. intros i. unfold applied.
  repeat (rewrite driven_lookup;
          repeat (destruct (decide _); try congruence; try discriminate));
    try reflexivity;
    destruct (gpios w !! _); reflexivity.
Qed.

(** X11: the state of the pins after two bitmasks were applied in a row is
    the state after the second alone: the three levels are overwritten and
    nothing of the first bitmask remains, so the bank reads back as the
    second one. *)
Theorem set_value_overwrites self m1 m2 w :
  bank_ready self w -> 0 <= m1 <= 7 -> 0 <= m2 <= 7 ->
  exists w1 w2 w2',
    MIDIRelayController.set_value self m1 w = (Return tt, w1)
    /\ MIDIRelayController.set_value self m2 w1 = (Return tt, w2)
    /\ MIDIRelayController.set_value self m2 w = (Return tt, w2')
    /\ gpios w2 = gpios w2'
    /\ recombine self w2 = Return m2.
Proof.
  intros Hready H1 H2.
  pose proof (applied_ready self m1 w Hready) as Hready1.
  exists (applied m1 w), (applied m2 (applied m1 w)), (applied m2 w).
  split; [apply set_value_ready; assumption|].
  split; [apply set_value_ready; assumption|].
  split; [apply set_value_ready; assumption|].
  split; [apply applied_overwrites|].
  apply applied_reads_back; assumption.
Qed.

Lemma set_value_overwrites_witness :
  exists w1 w2 w2',
    MIDIRelayController.set_value (controller 0 4) 5 live_world = (Return tt, w1)
    /\ MIDIRelayController.set_value (controller 0 4) 2 w1 = (Return tt, w2)
    /\ MIDIRelayController.set_value (controller 0 4) 2 live_world
       = (Return tt, w2')
    /\ gpios w2 = gpios w2'
    /\ recombine (controller 0 4) w2 = Return 2.
Proof.
  apply (set_value_overwrites (controller 0 4) 5 2 live_world).
  - apply live_world_ready.
  - lia.
  - lia.
Defined.

(** ** Tokens *)

Lemma split_from_concat s : forall token,
  concat (split_from token s)
  = token ++ List.filter (fun c => negb (Py_ISSPACE c)) s.
Proof.
  induction s as [|c s IH]; intros token; cbn [split_from List.filter].
  - destruct token; cbn [concat]; rewrite ?app_nil_r; reflexivity.
  - destruct (Py_ISSPACE c); cbn [negb].
    + destruct token as [|t token]; [apply IH|].
      cbn [concat]. rewrite IH. reflexivity.
    + rewrite IH, <- app_assoc. reflexivity.
Qed.

Lemma split_from_tokens s : forall token t,
  Forall (fun c => Py_ISSPACE c = false) token ->
  t ∈ split_from token s ->
  t <> [] /\ Forall (fun c => Py_ISSPACE c = false) t.
Proof.
  induction s as [|c s IH]; intros token t Htok Hin; cbn [split_from] in Hin.
  - destruct token as [|x token]; [inversion Hin|].
    apply list_elem_of_singleton in Hin as ->. split; [discriminate | exact Htok].
  - destruct (Py_ISSPACE c) eqn:Hc.
    + destruct token as [|x token]; [apply (IH [] t); [constructor | exact Hin]|].
      apply elem_of_cons in Hin as [-> | Hin].
      * split; [discriminate | exact Htok].
      * apply (IH [] t); [constructor | exact Hin].
    + apply (IH (token ++ [c]) t); [|exact Hin].
      apply Forall_app. split; [exact Htok | repeat constructor; exact Hc].
Qed.

(** X12: every token of [bytes.split()] is not empty and holds no
    whitespace, and the tokens put end to end are the buffer with its
    whitespace taken out: no other character is lost, added or moved. *)
Theorem split_tokens s :
  Forall (fun t => t <> [] /\ Forall (fun c => Py_ISSPACE c = false) t)
         (split s)
  /\ concat (split s) = List.filter (fun c => negb (Py_ISSPACE c)) s.
Proof.
  split.
  - apply Forall_forall. intros t Hin.
    apply (split_from_tokens s [] t); [constructor | exact Hin].
  - unfold split. rewrite split_from_concat. reflexivity.
Qed.

(** ** Hexadecimal literals *)

Lemma hex_digit_plain c :
  hex_digit c -> is_underscore c = false /\ Py_ISSPACE c = false.
Proof.
  intros H. split.
  - unfold is_underscore. destruct (Ascii.eqb_spec c "_") as [->|_];
      [|reflexivity]. vm_compute in H. discriminate H.
  - apply not_true_is_false. intros Hs. revert H.
    unfold hex_digit, _PyLong_DigitValue. unfold Py_ISSPACE in Hs.
    set (n := nat_of_ascii c) in *.
    apply orb_true_iff in Hs.
    rewrite andb_true_iff, Nat.eqb_eq, !Nat.leb_le in Hs.
    repeat case_match; try lia;
      repeat match goal with
             | H : _ && _ = true |- _ => apply andb_true_iff in H as [? ?]
             end; lia.
Qed.

Lemma scan_hex_digits digits : forall acc,
  Forall hex_digit digits ->
  scan_digits false acc digits
  = Some (fold_left (fun a c => a * 16 + _PyLong_DigitValue c) digits acc, []).
Proof.
  induction digits as [|c digits IH]; intros acc H; [reflexivity|].
  inversion H as [|? ? Hc Hrest]; subst.
  cbn [scan_digits fold_left].
  rewrite (proj1 (hex_digit_plain c Hc)).
  replace (_PyLong_DigitValue c <? 16) with true
    by (symmetry; apply Z.ltb_lt; exact Hc).
  apply IH. exact Hrest.
Qed.

Lemma int16_hex digits :
  digits <> [] -> Forall hex_digit digits ->
  int16 (b "0x" ++ digits) = Return (hex_value digits).
Proof.
  intros Hne H. rewrite int16_prefixed.
  destruct digits as [|c digits]; [contradiction|].
  inversion H as [|? ? Hc Hrest]; subst.
  pose proof (proj1 (hex_digit_plain c Hc)) as Hus.
  cbv zeta beta iota. rewrite Hus. cbv beta iota. rewrite ?Hus.
  rewrite (scan_hex_digits (c :: digits) 0 H).
  rewrite bool_decide_eq_false_2 by discriminate.
  cbn [lstrip]. unfold hex_value. f_equal. apply Z.mul_1_l.
Qed.

(** X13: on a token made of hexadecimal digits only, of any length,
    [int(b"0x" + token, base=16)] returns the number the digits denote, most
    significant digit first. *)
Theorem int16_hex_digits digits :
  digits <> [] -> Forall hex_digit digits ->
  int16 (b "0x" ++ digits) = Return (hex_value digits).
Proof. apply int16_hex. Qed.

Lemma hex_digits_3c : Forall hex_digit (b "3c").
Proof. repeat constructor; vm_compute; reflexivity. Qed.

Lemma int16_hex_digits_witness : int16 (b "0x" ++ b "3c") = Return 60.
Proof.
  apply (int16_hex_digits (b "3c")); [discriminate | exact hex_digits_3c].
Defined.

Lemma scan_keeps_stray c s : forall prev acc v rest,
  scan_digits prev acc s = Some (v, rest) -> c ∈ s -> stray c -> c ∈ rest.
Proof.
  induction s as [|c0 s IH]; intros prev acc v rest Hscan Hin Hstray.
  - inversion Hin.
  - destruct Hstray as (Hsp & Hus & Hdig). cbn [scan_digits] in Hscan.
    assert (Hstray : stray c) by (repeat split; assumption).
    destruct (is_underscore c0) eqn:H0.
    + destruct prev; [discriminate|].
      apply elem_of_cons in Hin as [-> | Hin]; [congruence|].
      eapply IH; eassumption.
    + destruct (_PyLong_DigitValue c0 <? 16) eqn:Hd.
      * apply elem_of_cons in Hin as [-> | Hin]; [lia|].
        eapply IH; eassumption.
      * destruct prev; [discriminate|]. injection Hscan as _ <-. exact Hin.
Qed.

Lemma lstrip_keeps c s :
  c ∈ s -> Py_ISSPACE c = false -> lstrip s <> [].
Proof.
  induction s as [|c0 s IH]; intros Hin Hc; [inversion Hin|].
  cbn [lstrip]. destruct (Py_ISSPACE c0) eqn:H0; [|discriminate].
  apply elem_of_cons in Hin as [-> | Hin]; [congruence|].
  apply IH; assumption.
Qed.

Lemma int16_stray token c :
  c ∈ token -> stray c -> int16 (b "0x" ++ token) = Raise ValueError.
Proof.
  intros Hin Hstray. rewrite int16_prefixed. cbv zeta.
  set (s := match token with
            | c2 :: t' => if is_underscore c2 then t' else token
            | [] => token
            end).
  assert (Hs : c ∈ s).
  { subst s. destruct token as [|c2 t']; [exact Hin|].
    destruct (is_underscore c2) eqn:H2; [|exact Hin].
    apply elem_of_cons in Hin as [-> | Hin]; [|exact Hin].
    destruct Hstray as (_ & Hus & _). congruence. }
  destruct s as [|c0 s'] eqn:Es; [inversion Hs|].
  destruct (is_underscore c0); [reflexivity|].
  destruct (scan_digits false 0 (c0 :: s')) as [[v rest]|] eqn:Hscan;
    [|reflexivity].
  destruct (bool_decide (rest = c0 :: s')); [reflexivity|].
  pose proof (scan_keeps_stray c _ _ _ _ _ Hscan Hs Hstray) as Hrest.
  destruct (lstrip rest) eqn:Hl; [|reflexivity].
  exfalso. eapply lstrip_keeps; [exact Hrest | apply Hstray | exact Hl].
Qed.

(** X14: a buffer that holds a character which is neither a hexadecimal
    digit, nor an underscore, nor whitespace is dropped by [_callback]: no
    relay is written and nothing is raised, wherever the character stands in
    the buffer. *)
Theorem stray_character_ignored self byte_buffer c w :
  c ∈ concat byte_buffer -> stray c ->
  MIDIRelayController._callback self byte_buffer w = (Return tt, w).
Proof.
  intros Hin Hstray.
  assert (Hf : In c (concat (split (concat byte_buffer)))).
  { unfold split. rewrite split_from_concat. cbn [app].
    apply filter_In. split; [apply list_elem_of_In; exact Hin|].
    destruct Hstray as (-> & _). reflexivity. }
  apply in_concat in Hf as (token & Htoken & Hc).
  apply (callback_garbled self byte_buffer token w).
  - apply list_elem_of_In. exact Htoken.
  - apply (int16_stray token c); [apply list_elem_of_In; exact Hc | exact Hstray].
Qed.

Lemma stray_minus : stray "-".
Proof. repeat split; vm_compute; discriminate. Qed.

Lemma stray_character_ignored_witness :
  MIDIRelayController._callback (controller 0 4) (chars "93 -3c") live_world
  = (Return tt, live_world).
Proof.
  apply (stray_character_ignored (controller 0 4) (chars "93 -3c") "-"
           live_world).
  - vm_compute. do 3 right. left.
  - exact stray_minus.
Defined.

(** ** Frames that are no note messages *)

Lemma split_from_spaces s :
  Forall (fun c => Py_ISSPACE c = true) s -> split_from [] s = [].
Proof.
  induction 1 as [|c s Hc _ IH]; [reflexivity|].
  cbn [split_from]. rewrite Hc. exact IH.
Qed.

(** X15: a frame whose status is neither a note-off nor a note-on, whatever
    its data, and a buffer of whitespace only, make [_callback] return
    without writing a relay. *)
Theorem other_frames_ignored self byte_buffer w :
  (forall status data,
     MIDIRelayController.midi_hex (split (concat byte_buffer))
       = Return (status :: data) ->
     Z.land status 0xF0 <> 0x80 -> Z.land status 0xF0 <> 0x90 ->
     MIDIRelayController._callback self byte_buffer w = (Return tt, w))
  /\ (Forall (fun c => Py_ISSPACE c = true) (concat byte_buffer) ->
      MIDIRelayController._callback self byte_buffer w = (Return tt, w)).
Proof.
  split.
  - intros status data Hframe Hoff Hon.
    rewrite (callback_decoded self byte_buffer status data w Hframe).
    replace (Z.land status 0xF0 =? 0x80) with false by lia.
    replace (Z.land status 0xF0 =? 0x90) with false by lia.
    reflexivity.
  - intros Hsp. unfold MIDIRelayController._callback.
    destruct byte_buffer; [reflexivity|].
    unfold split. rewrite (split_from_spaces _ Hsp). reflexivity.
Qed.

Lemma other_frames_ignored_witness :
  MIDIRelayController._callback (controller 0 4) (chars "b3 07 7f") live_world
    = (Return tt, live_world)
  /\ MIDIRelayController._callback (controller 0 4) (chars "  ") live_world
     = (Return tt, live_world).
Proof.
  split.
  - apply (proj1 (other_frames_ignored (controller 0 4) (chars "b3 07 7f")
                    live_world) 0xb3 [7; 0x7f]);
      [reflexivity | discriminate | discriminate].
  - apply (proj2 (other_frames_ignored (controller 0 4) (chars "  ")
                    live_world)).
    repeat constructor.
Defined.

(** ** The note table *)

Lemma note_table n :
  MIDIRelayController.NOTE_TO_VALUE !! n
  = if bool_decide (60 <= n <= 66) then Some (n - 59) else None.
Proof.
  unfold MIDIRelayController.NOTE_TO_VALUE. cbn [list_to_map foldr uncurry].
  cbn [fst snd curry].
  repeat (rewrite lookup_insert; case_decide;
          [subst n; reflexivity|]).
  rewrite lookup_empty. rewrite bool_decide_eq_false_2 by lia. reflexivity.
Qed.

(** X16: a note-on for the configured channel applies the bitmask
    [note - 59] when the note lies between 60 and 66, and the base value for
    every other note; the bytes after the note (the velocity) play no
    part. *)
Theorem note_on_bitmask self byte_buffer status note rest w :
  MIDIRelayController.midi_hex (split (concat byte_buffer))
    = Return (status :: note :: rest) ->
  Z.land status 0xF0 = 0x90 -> Z.land status 0x0F + 1 = channel self ->
  MIDIRelayController._callback self byte_buffer w
  = MIDIRelayController.set_value self
      (if bool_decide (60 <= note <= 66) then note - 59 else base_value self) w.
Proof.
  intros Hframe Hon Hch.
  rewrite (callback_decoded self byte_buffer status (note :: rest) w Hframe).
  rewrite Hon. change (0x90 =? 0x80) with false.
  change (0x90 =? 0x90) with true. cbv beta iota.
  unfold MIDIRelayController._set_note_on.
  replace (Z.land status 0x0F + 1 =? channel self) with true by lia.
  cbn [negb]. rewrite note_table. case_bool_decide; reflexivity.
Qed.

Lemma note_on_bitmask_witness :
  MIDIRelayController._callback (controller 0 4) (chars "93 42 00") live_world
  = MIDIRelayController.set_value (controller 0 4) 7 live_world.
Proof.
  apply (note_on_bitmask (controller 0 4) (chars "93 42 00") 0x93 66 [0]
           live_world); reflexivity.
Defined.

(** ** What the control loop writes *)

Lemma only_refl P w : only P w w.
Proof. exists []. split; [reflexivity | constructor]. Qed.

Lemma only_trans P w1 w2 w3 : only P w1 w2 -> only P w2 w3 -> only P w1 w3.
Proof.
  intros (l1 & H1 & F1) (l2 & H2 & F2). exists (l2 ++ l1). split.
  - rewrite H2, H1. apply app_assoc.
  - apply Forall_app. split; assumption.
Qed.

Lemma adds_ret {A} P (a : A) : adds P (ret a).
Proof. intros w. apply only_refl. Qed.

Lemma adds_raise {A} P e : adds P (@raise world A e).
Proof. intros w. apply only_refl. Qed.

Lemma adds_bind {A B} P (m : py world A) (k : A -> py world B) :
  adds P m -> (forall a, adds P (k a)) -> adds P (bind m k).
Proof.
  intros Hm Hk w. unfold bind. specialize (Hm w).
  destruct (m w) as [[a|e] w']; [|exact Hm].
  eapply only_trans; [exact Hm | apply Hk].
Qed.

Lemma adds_open_gpio P c : adds P (open_gpio c).
Proof.
  intros w. unfold open_gpio. repeat case_match; apply only_refl.
Qed.

Lemma adds_relay_set_value (P : event -> Prop) c v :
  P (EvValue c (Relay._value_to_raw_value v)) -> adds P (Relay.set_value c v).
Proof.
  intros HP.
  unfold Relay.set_value, Relay._set_raw_value, read_value, write_value.
  repeat (apply adds_bind; [|intros ?]);
    try apply adds_open_gpio; try apply adds_ret.
  intros w. exists [EvValue c (Relay._value_to_raw_value v)].
  split; [reflexivity | repeat constructor; exact HP].
Qed.

Lemma adds_set_relay self i v :
  adds (relay_write self) (MIDIRelayController.set_relay self i v).
Proof.
  unfold MIDIRelayController.set_relay.
  destruct (relays self !! i) as [r|] eqn:Hr; [|apply adds_raise].
  apply adds_relay_set_value. exists (_channel r), v. split; [reflexivity|].
  apply list_elem_of_fmap. exists r. split; [reflexivity|].
  eapply list_elem_of_lookup_2. exact Hr.
Qed.

Lemma adds_set_value self value :
  adds (relay_write self) (MIDIRelayController.set_value self value).
Proof.
  unfold MIDIRelayController.set_value.
  destruct ((value <? 0) || (value >? 7)); [apply adds_raise|].
  repeat (apply adds_bind; [|intros ?]); apply adds_set_relay.
Qed.

Lemma adds_callback self byte_buffer :
  adds (relay_write self) (MIDIRelayController._callback self byte_buffer).
Proof.
  unfold MIDIRelayController._callback, MIDIRelayController._set_note_on.
  repeat case_match;
    try apply adds_ret; try apply adds_raise; apply adds_set_value.
Qed.

Lemma loop_adds self stdout : forall n buffer w,
  only (relay_write self) w
    (snd (fst (MIDIRelayController.loop self stdout n buffer w))).
Proof.
  induction stdout as [|c rest IH]; intros n buffer w;
    cbn [MIDIRelayController.loop].
  - apply only_refl.
  - destruct (Ascii.eqb c newline); [apply IH|].
    pose proof (adds_callback self (buffer ++ [[c]]) w) as Hcb.
    destruct (MIDIRelayController._callback self (buffer ++ [[c]]) w)
      as [[u|e] w'].
    + eapply only_trans; [exact Hcb | apply IH].
    + exact Hcb.
Qed.

(** X17: whatever the stream, the configuration and the state of the pins,
    everything [run_forever] adds to the journal is a write of ON or OFF to
    the value file of one of the controller's relays: the control loop never
    exports, unexports or reconfigures a channel, and never writes to a pin
    that is not its own. *)
Theorem run_forever_writes_relay_values self process w :
  only (relay_write self) w
    (snd (fst (MIDIRelayController.run_forever self process w))).
Proof.
  unfold MIDIRelayController.run_forever.
  pose proof (adds_set_value self (base_value self) w) as Hset.
  destruct (MIDIRelayController.set_value self (base_value self) w)
    as [[u|e] w1]; [|exact Hset].
  destruct (readline (pending process)) as [line rest].
  eapply only_trans; [exact Hset | apply loop_adds].
Qed.

(** ** The bank during the control loop *)

Lemma at_eof_drained n : MIDIRelayController.at_eof n = Capture [] 0.
Proof. induction n as [|n IH]; [reflexivity | exact IH]. Qed.

Lemma recombine_gpios self w w' :
  gpios w' = gpios w -> recombine self w' = recombine self w.
Proof.
  intros H. unfold recombine.
  rewrite !(output_frame self _ w w') by (intros r _; rewrite H; reflexivity).
  reflexivity.
Qed.

Lemma applied_gpios m w w' :
  gpios w = gpios w' -> gpios (applied m w) = gpios (applied m w').
Proof.
  intros H. apply map_eq. intros i. unfold applied.
  rewrite !driven_lookup, H. reflexivity.
Qed.

Lemma callback_cases self byte_buffer w :
  bank_ready self w -> 0 <= base_value self <= 7 ->
  MIDIRelayController._callback self byte_buffer w = (Return tt, w)
  \/ MIDIRelayController._callback self byte_buffer w = (Raise AttributeError, w)
  \/ exists m, loop_bitmask self m /\ 0 <= m <= 7
       /\ MIDIRelayController._callback self byte_buffer w
          = (Return tt, applied m w).
Proof.
  intros Hready Hbase. unfold MIDIRelayController._callback.
  destruct byte_buffer as [|x l]; [left; reflexivity|].
  destruct (MIDIRelayController.midi_hex (split (concat (x :: l))))
    as [[|control values]|e] eqn:Hframe.
  - left. reflexivity.
  - destruct (Z.land control MIDIRelayController.CONTROL_MASK
              =? MIDIRelayController.CONTROL_NOTE_OFF);
      [right; left; reflexivity|].
    destruct (Z.land control MIDIRelayController.CONTROL_MASK
              =? MIDIRelayController.CONTROL_NOTE_ON);
      [|left; reflexivity].
    unfold MIDIRelayController._set_note_on.
    destruct (negb _); [left; reflexivity|].
    destruct values as [|note values]; [left; reflexivity|].
    right. right. rewrite note_table.
    case_bool_decide; cbn [default].
    + exists (note - 59). split; [right; lia|]. split; [lia|].
      apply set_value_ready; [exact Hready | lia].
    + exists (base_value self). split; [left; reflexivity|].
      split; [exact Hbase|]. apply set_value_ready; assumption.
  - apply midi_hex_raises in Hframe as ->. left. reflexivity.
Qed.

Lemma loop_keeps_bank self w0 stdout : forall n buffer w,
  0 <= base_value self <= 7 ->
  bank_ready self w ->
  (exists m, loop_bitmask self m /\ 0 <= m <= 7
             /\ gpios w = gpios (applied m w0)) ->
  exists o w' cap m,
    MIDIRelayController.loop self stdout n buffer w = (o, w', cap)
    /\ (o = Return tt /\ cap = Capture [] 0 \/ o = Raise AttributeError)
    /\ bank_ready self w'
    /\ loop_bitmask self m /\ 0 <= m <= 7
    /\ gpios w' = gpios (applied m w0).
Proof.
  induction stdout as [|c rest IH]; intros n buffer w Hbase Hready Hm;
    cbn [MIDIRelayController.loop].
  - destruct Hm as (m & Hm & Hr & Hg).
    exists (Return tt), w, (MIDIRelayController.at_eof n), m.
    rewrite at_eof_drained. auto 10.
  - destruct (Ascii.eqb c newline); [apply IH; assumption|].
    destruct (callback_cases self (buffer ++ [[c]]) w Hready Hbase)
      as [-> | [-> | (x & Hx & Hxr & ->)]].
    + apply IH; assumption.
    + destruct Hm as (m & Hm & Hr & Hg).
      exists (Raise AttributeError), w, (Capture rest n), m. auto 10.
    + apply IH; [exact Hbase | apply applied_ready; exact Hready|].
      exists x. split; [exact Hx|]. split; [exact Hxr|].
      destruct Hm as (m & _ & _ & Hg).
      rewrite (applied_gpios x w (applied m w0) Hg).
      apply applied_overwrites.
Qed.

(** X19: started on a constructed bank with a base value in [0,7],
    [run_forever] either returns at the end of the stream, with the stream
    read to its end, or stops with the [AttributeError] of a note-off; it
    never raises anything else. In both cases the bank is still usable and
    its pins are exactly as one bitmask leaves them, the base value or a
    value of the note table, which is what the bank reads back. *)
Theorem run_forever_keeps_bank_valid self process w :
  bank_ready self w -> 0 <= base_value self <= 7 ->
  exists o w' cap m,
    MIDIRelayController.run_forever self process w = (o, w', cap)
    /\ (o = Return tt /\ cap = Capture [] 0 \/ o = Raise AttributeError)
    /\ bank_ready self w'
    /\ loop_bitmask self m /\ 0 <= m <= 7
    /\ gpios w' = gpios (applied m w)
    /\ recombine self w' = Return m.
Proof.
  intros Hready Hbase. unfold MIDIRelayController.run_forever.
  rewrite (set_value_ready self (base_value self) w Hready Hbase).
  destruct (readline (pending process)) as [line rest].
  destruct (loop_keeps_bank self w rest (lingering process) []
              (applied (base_value self) w) Hbase
              (applied_ready self _ w Hready))
    as (o & w' & cap & m & Hloop & Hout & Hready' & Hm & Hr & Hg).
  { exists (base_value self). split; [left; reflexivity|]. auto. }
  exists o, w', cap, m. repeat (split; [assumption|]).
  rewrite (recombine_gpios self (applied m w) w' Hg).
  apply applied_reads_back; assumption.
Qed.

Lemma run_forever_keeps_bank_valid_witness :
  exists o w' cap m,
    MIDIRelayController.run_forever (controller 0 4)
      (Capture (newline :: b "93 3e 40") 2) live_world = (o, w', cap)
    /\ (o = Return tt /\ cap = Capture [] 0 \/ o = Raise AttributeError)
    /\ bank_ready (controller 0 4) w'
    /\ loop_bitmask (controller 0 4) m /\ 0 <= m <= 7
    /\ gpios w' = gpios (applied m live_world)
    /\ recombine (controller 0 4) w' = Return m.
Proof.
  apply (run_forever_keeps_bank_valid (controller 0 4)
           (Capture (newline :: b "93 3e 40") 2) live_world).
  - apply live_world_ready.
  - simpl. lia.
Defined.

(** ** A note-on, character by character *)

Lemma split_note_on c d1 d2 :
  Py_ISSPACE c = false -> Py_ISSPACE d1 = false -> Py_ISSPACE d2 = false ->
  split ["9"; c]%char = [["9"; c]%char]
  /\ split ["9"; c; " "]%char = [["9"; c]%char]
  /\ split ["9"; c; " "; d1]%char = [["9"; c]%char; [d1]]
  /\ split ["9"; c; " "; d1; d2]%char = [["9"; c]%char; [d1; d2]].
Proof.
  intros Hc H1 H2. unfold split. cbn [split_from app].
  change (Py_ISSPACE "9") with false. change (Py_ISSPACE " ") with true.
  cbv beta iota. rewrite Hc, H1, H2. cbn [split_from app].
  repeat split; reflexivity.
Qed.

Lemma status_nibbles d :
  0 <= d < 16 -> Z.land (144 + d) 0xF0 = 0x90 /\ Z.land (144 + d) 0x0F = d.
Proof.
  intros H.
  assert (Hd : d = 0 \/ d = 1 \/ d = 2 \/ d = 3 \/ d = 4 \/ d = 5 \/ d = 6
               \/ d = 7 \/ d = 8 \/ d = 9 \/ d = 10 \/ d = 11 \/ d = 12
               \/ d = 13 \/ d = 14 \/ d = 15) by lia.
  repeat (destruct Hd as [-> | Hd]; [split; reflexivity|]).
  subst d. split; reflexivity.
Qed.

(** X18: the buffer is decoded again after every character, so a note-on
    for the configured channel, sent as [9c d1d2], acts twice: after the
    first digit of the note the frame holds a note below 16, which the table
    does not know, and the base value is applied; after the second digit
    the bitmask of the note is applied. The relays pass through the base
    value on every such message. *)
Theorem note_on_passes_through_base self c d1 d2 rest n w :
  bank_ready self w -> 0 <= base_value self <= 7 ->
  hex_digit c -> _PyLong_DigitValue c + 1 = channel self ->
  hex_digit d1 -> hex_digit d2 ->
  let note := _PyLong_DigitValue d1 * 16 + _PyLong_DigitValue d2 in
  let target :=
    if bool_decide (60 <= note <= 66) then note - 59 else base_value self in
  MIDIRelayController.loop self ("9" :: c :: " " :: d1 :: d2 :: rest)%char
    n [] w
  = MIDIRelayController.loop self rest n
      [["9"]; [c]; [" "]; [d1]; [d2]]%char
      (applied target (applied (base_value self) w)).
Proof.
  intros Hready Hbase Hc Hch H1 H2 note target.
  destruct (hex_digit_plain c Hc) as [Uc Sc].
  destruct (hex_digit_plain d1 H1) as [U1 S1].
  destruct (hex_digit_plain d2 H2) as [U2 S2].
  destruct (split_note_on c d1 d2 Sc S1 S2) as (T2 & T3 & T4 & T5).
  pose proof (digit_nonneg c) as Nc.
  pose proof (digit_nonneg d1) as N1.
  pose proof (digit_nonneg d2) as N2.
  unfold hex_digit in Hc, H1, H2.
  destruct (status_nibbles (_PyLong_DigitValue c) ltac:(lia)) as [Hhi Hlo].
  assert (I0 : int16 (b "0x" ++ ["9"; c]%char)
               = Return (144 + _PyLong_DigitValue c)).
  { rewrite (int16_hex ["9"; c]%char);
      [ | discriminate | ].
    2:{ constructor; [vm_compute; reflexivity|].
        constructor; [exact Hc | constructor]. }
    unfold hex_value. cbn [fold_left].
    change (_PyLong_DigitValue "9") with 9. f_equal; lia. }
  assert (I1 : int16 (b "0x" ++ [d1]) = Return (_PyLong_DigitValue d1)).
  { rewrite (int16_hex [d1]); [ | discriminate | ].
    2:{ constructor; [exact H1 | constructor]. }
    unfold hex_value. cbn [fold_left]. f_equal; lia. }
  assert (I2 : int16 (b "0x" ++ [d1; d2]) = Return note).
  { rewrite (int16_hex [d1; d2]); [ | discriminate | ].
    2:{ constructor; [exact H1|].
        constructor; [exact H2 | constructor]. }
    unfold hex_value. cbn [fold_left]. f_equal; subst note; lia. }
  assert (Hnl : forall x, Py_ISSPACE x = false -> x <> newline).
  { intros x Hx ->. discriminate Hx. }
  assert (Ready1 : bank_ready self (applied (base_value self) w))
    by (apply applied_ready; exact Hready).
  assert (Htarget : 0 <= target <= 7).
  { subst target. case_bool_decide; lia. }
  (* "9" *)
  rewrite loop_char by discriminate.
  change (MIDIRelayController._callback self ([] ++ [["9"%char]]) w)
    with (@Return unit tt, w). cbv beta iota.
  (* the channel digit: a note-on without data *)
  rewrite loop_char by (apply Hnl; exact Sc).
  rewrite (callback_decoded self _ (144 + _PyLong_DigitValue c) [] w)
    by (cbn [app concat]; rewrite T2, !midi_hex_cons, I0; reflexivity).
  rewrite Hhi, Hlo. change (0x90 =? 0x80) with false.
  change (0x90 =? 0x90) with true. cbv beta iota.
  unfold MIDIRelayController._set_note_on at 1.
  replace (_PyLong_DigitValue c + 1 =? channel self) with true by lia.
  cbn [negb]. unfold ret at 1.
  (* the space *)
  rewrite loop_char by discriminate.
  rewrite (callback_decoded self _ (144 + _PyLong_DigitValue c) [] w)
    by (cbn [app concat]; rewrite T3, !midi_hex_cons, I0; reflexivity).
  rewrite Hhi, Hlo. change (0x90 =? 0x80) with false.
  change (0x90 =? 0x90) with true. cbv beta iota.
  unfold MIDIRelayController._set_note_on at 1.
  replace (_PyLong_DigitValue c + 1 =? channel self) with true by lia.
  cbn [negb]. unfold ret at 1.
  (* first digit of the note: the base value *)
  rewrite loop_char by (apply Hnl; exact S1).
  rewrite (callback_decoded self _ (144 + _PyLong_DigitValue c)
             [_PyLong_DigitValue d1] w)
    by (cbn [app concat]; rewrite T4, !midi_hex_cons, I0, I1; reflexivity).
  rewrite Hhi, Hlo. change (0x90 =? 0x80) with false.
  change (0x90 =? 0x90) with true. cbv beta iota.
  unfold MIDIRelayController._set_note_on at 1.
  replace (_PyLong_DigitValue c + 1 =? channel self) with true by lia.
  cbn [negb]. rewrite note_table.
  rewrite bool_decide_eq_false_2 by lia. cbn [default].
  rewrite (set_value_ready self (base_value self) w Hready Hbase).
  (* second digit: the bitmask of the note *)
  rewrite loop_char by (apply Hnl; exact S2).
  rewrite (callback_decoded self _ (144 + _PyLong_DigitValue c) [note]
             (applied (base_value self) w))
    by (cbn [app concat]; rewrite T5, !midi_hex_cons, I0, I2; reflexivity).
  rewrite Hhi, Hlo. change (0x90 =? 0x80) with false.
  change (0x90 =? 0x90) with true. cbv beta iota.
  unfold MIDIRelayController._set_note_on at 1.
  replace (_PyLong_DigitValue c + 1 =? channel self) with true by lia.
  cbn [negb]. rewrite note_table.
  replace (default (base_value self)
             (if bool_decide (60 <= note <= 66) then Some (note - 59) else None))
    with target by (subst target; case_bool_decide; reflexivity).
  rewrite (set_value_ready self target _ Ready1 Htarget).
  reflexivity.
Qed.

Lemma hex_digit_3 : hex_digit "3".
Proof. vm_compute. reflexivity. Qed.

Lemma hex_digit_c : hex_digit "c".
Proof. vm_compute. reflexivity. Qed.

Lemma note_on_passes_through_base_witness :
  MIDIRelayController.loop (controller 2 4) (b "93 3c") 0 [] live_world
  = MIDIRelayController.loop (controller 2 4) [] 0 (chars "93 3c")
      (applied 1 (applied 2 live_world)).
Proof.
  apply (note_on_passes_through_base (controller 2 4) "3" "3" "c" [] 0%nat
           live_world).
  - apply live_world_ready.
  - simpl. lia.
  - exact hex_digit_3.
  - reflexivity.
  - exact hex_digit_3.
  - exact hex_digit_c.
Defined.

(** ** Finding the MIDI port *)

Lemma split_sep_from_none sep m s : forall piece,
  sep ∉ s -> split_sep_from sep (S m) piece s = [piece ++ s].
Proof.
  induction s as [|c s IH]; intros piece Hs; cbn [split_sep_from].
  - rewrite app_nil_r. reflexivity.
  - destruct (Ascii.eqb_spec c sep) as [->|_]; [exfalso; apply Hs; left|].
    rewrite IH by (intros H; apply Hs; right; exact H).
    rewrite <- app_assoc. reflexivity.
Qed.

Lemma split_sep_from_first sep m header rest : forall piece,
  sep ∉ header ->
  split_sep_from sep (S m) piece (header ++ sep :: rest)
  = (piece ++ header) :: split_sep_from sep m [] rest.
Proof.
  induction header as [|c header IH]; intros piece Hh.
  - cbn [app split_sep_from]. rewrite Ascii.eqb_refl, app_nil_r. reflexivity.
  - change ((c :: header) ++ sep :: rest) with (c :: (header ++ sep :: rest)).
    cbn [split_sep_from].
    destruct (Ascii.eqb_spec c sep) as [->|_]; [exfalso; apply Hh; left|].
    rewrite IH by (intros H; apply Hh; right; exact H).
    rewrite <- app_assoc. reflexivity.
Qed.

Lemma str_split_from_tokens s : forall token t,
  Forall (fun c => Py_UNICODE_ISSPACE c = false) token ->
  t ∈ str_split_from token s ->
  t <> [] /\ Forall (fun c => Py_UNICODE_ISSPACE c = false) t.
Proof.
  induction s as [|c s IH]; intros token t Htok Hin;
    cbn [str_split_from] in Hin.
  - destruct token as [|x token]; [inversion Hin|].
    apply list_elem_of_singleton in Hin as ->. split; [discriminate | exact Htok].
  - destruct (Py_UNICODE_ISSPACE c) eqn:Hc.
    + destruct token as [|x token]; [apply (IH [] t); [constructor | exact Hin]|].
      apply elem_of_cons in Hin as [-> | Hin].
      * split; [discriminate | exact Htok].
      * apply (IH [] t); [constructor | exact Hin].
    + apply (IH (token ++ [c]) t); [|exact Hin].
      apply Forall_app. split; [exact Htok | repeat constructor; exact Hc].
Qed.

(** X20: [_get_midi_port] looks at the second line of the output of
    [amidi -l] only: it returns the second whitespace-separated field of
    that line, whatever follows it, and raises [IndexError] when the output
    has a single line or when its second line has less than two fields. A
    port that is returned is never empty and holds no whitespace. *)
Theorem port_discovery stderr_data :
  (forall stdout_data,
     newline ∉ stdout_data ->
     _get_midi_port (Some (stdout_data, stderr_data))
     = inr (Builtin IndexError))
  /\ (forall header line rest,
        newline ∉ header -> newline ∉ line ->
        let result :=
          match str_split line with
          | _ :: port :: _ => inl port
          | _ => inr (Builtin IndexError)
          end in
        _get_midi_port (Some (header ++ newline :: line, stderr_data)) = result
        /\ _get_midi_port
             (Some (header ++ newline :: line ++ newline :: rest, stderr_data))
           = result)
  /\ (forall stdout_data port,
        _get_midi_port (Some (stdout_data, stderr_data)) = inl port ->
        port <> [] /\ Forall (fun c => Py_UNICODE_ISSPACE c = false) port).
Proof.
  split; [|split].
  - intros stdout_data Hnl. unfold _get_midi_port, split_sep.
    rewrite split_sep_from_none by exact Hnl. reflexivity.
  - intros header line rest Hh Hl result. unfold _get_midi_port, split_sep.
    rewrite !split_sep_from_first by assumption.
    rewrite split_sep_from_none by exact Hl.
    cbn [app]. change ((header :: [line]) !! 1%nat) with (Some line).
    change ((header :: line :: split_sep_from newline 0 [] rest) !! 1%nat)
      with (Some line).
    subst result. cbv beta iota.
    destruct (str_split line) as [|f0 [|f1 fs]]; split; reflexivity.
  - intros stdout_data port. unfold _get_midi_port.
    destruct (split_sep newline 2 stdout_data !! 1%nat) as [line|];
      [|discriminate].
    destruct (str_split line !! 1%nat) as [p|] eqn:Hp; [|discriminate].
    intros [= <-]. apply list_elem_of_lookup_2 in Hp.
    apply (str_split_from_tokens line [] p); [constructor | exact Hp].
Qed.

Lemma no_newline_in_listing :
  (newline ∉ b "Dir Device    Name")
  /\ (newline ∉ b "IO  hw:1,0,0  USB MIDI").
Proof.
  split; intros H; apply list_elem_of_In in H; cbn in H;
    repeat (destruct H as [H|H]; [discriminate H|]); exact H.
Qed.

Lemma port_discovery_witness :
  _get_midi_port (Some (b "amidi: no devices", [])) = inr (Builtin IndexError)
  /\ _get_midi_port
       (Some (b "Dir Device    Name" ++ newline
                :: b "IO  hw:1,0,0  USB MIDI" ++ newline
                :: b "IO  hw:2,0,0  Other", []))
     = inl (b "hw:1,0,0").
Proof.
  destruct (port_discovery []) as (Hone & Htwo & _).
  split.
  - apply Hone. intros H. apply list_elem_of_In in H. cbn in H.
    repeat (destruct H as [H|H]; [discriminate H|]). exact H.
  - apply (Htwo (b "Dir Device    Name") (b "IO  hw:1,0,0  USB MIDI")
             (b "IO  hw:2,0,0  Other"));
      apply no_newline_in_listing.
Defined.

(** ** The manual override *)

Lemma toggle_relay_ready self i v w :
  bank_ready self w -> (i < 3)%nat -> output self i w = Return v ->
  exists w',
    toggle_relay self i w = (Return (negate v), w')
    /\ bank_ready self w'
    /\ output self i w' = Return (negate v)
    /\ forall j, j <> i -> output self j w' = output self j w.
Proof.
  intros Hready Hi Hv.
  destruct (bank_usable self w Hready) as (U26 & U20 & U21).
  pose proof Hready as [Hch Hall].
  destruct (bank_relays self Hch) as (r0 & r1 & r2 & Hr & C0 & C1 & C2).
  assert (Hpick : exists r, relays self !! i = Some r /\ usable (_channel r) w
            /\ forall j r', j <> i -> relays self !! j = Some r' ->
                            _channel r <> _channel r').
  { rewrite Hr. destruct i as [|[|[|i]]]; [exists r0 | exists r1 | exists r2 | lia];
      (split; [reflexivity|]); (split; [congruence|]);
      intros [|[|[|j]]] r' Hj Hr'; try congruence;
      try (injection Hr' as <-; congruence);
      discriminate Hr'. }
  destruct Hpick as (r & Hri & Ur & Hdistinct).
  unfold output in Hv. rewrite Hri in Hv.
  exists (driven (_channel r) (negate v) w). repeat split.
  - unfold toggle_relay. rewrite Hri. apply toggle_usable; assumption.
  - exact Hch.
  - eapply Forall_impl; [exact Hall|]. intros c Hc. apply usable_driven. exact Hc.
  - unfold output. rewrite Hri. apply reading_driven_same. assumption.
  - intros j Hj. apply output_frame. intros r' Hr'.
    apply driven_frame. eapply Hdistinct; eassumption.
Qed.

Lemma choice_cases x :
  (choice x = Some 0%nat /\ x = "1"%string)
  \/ (choice x = Some 1%nat /\ x = "2"%string)
  \/ (choice x = Some 2%nat /\ x = "3"%string)
  \/ (choice x = None /\ x <> "1"%string /\ x <> "2"%string /\ x <> "3"%string).
Proof.
  unfold choice.
  destruct (String.eqb_spec x "1") as [->|N1]; [auto|].
  destruct (String.eqb_spec x "2") as [->|N2]; [auto|].
  destruct (String.eqb_spec x "3") as [->|N3]; [auto 10|].
  auto 10.
Qed.

Lemma eqb_false x y : x <> y -> String.eqb x y = false.
Proof. intros H. destruct (String.eqb_spec x y); [contradiction | reflexivity]. Qed.

(** X21: the manual override toggles by parity. With the bank constructed
    and readable, the loop ends normally at the first line [q], and with
    [EOFError] when the input ends without one; a line other than 1, 2, 3
    and q changes nothing. At the end output [i] is inverted exactly when
    the line [i+1] was entered an odd number of times before [q]. *)
Theorem override_parity self stdin : forall printed w v0 v1 v2,
  bank_ready self w ->
  output self 0 w = Return v0 -> output self 1 w = Return v1 ->
  output self 2 w = Return v2 ->
  exists printed' w',
    override self stdin printed w
    = ((if bool_decide ("q"%string ∈ stdin) then inl tt else inr EOFError),
       printed', w')
    /\ bank_ready self w'
    /\ output self 0 w'
       = Return (if odd_presses "1" stdin then negate v0 else v0)
    /\ output self 1 w'
       = Return (if odd_presses "2" stdin then negate v1 else v1)
    /\ output self 2 w'
       = Return (if odd_presses "3" stdin then negate v2 else v2).
Proof.
  induction stdin as [|x rest IH]; intros printed w v0 v1 v2 Hready H0 H1 H2.
  - exists printed, w. cbn [override odd_presses].
    rewrite bool_decide_eq_false_2 by (intros H; inversion H). auto.
  - cbn [override odd_presses].
    destruct (String.eqb_spec x "q") as [->|Hq].
    + exists printed, w. rewrite bool_decide_eq_true_2 by left. auto.
    + assert (Hmem : bool_decide ("q"%string ∈ x :: rest)
                     = bool_decide ("q"%string ∈ rest)).
      { apply bool_decide_ext. rewrite elem_of_cons. split; [|auto].
        intros [E|E]; [congruence | exact E]. }
      rewrite Hmem.
      destruct (choice_cases x)
        as [[-> ->] | [[-> ->] | [[-> ->] | (-> & N1 & N2 & N3)]]].
      * destruct (toggle_relay_ready self 0 v0 w Hready ltac:(lia) H0)
          as (w1 & -> & Hready1 & T0 & Tother).
        destruct (IH printed w1 (negate v0) v1 v2 Hready1 T0)
          as (p' & w' & -> & R & O0 & O1 & O2);
          [rewrite Tother by lia; exact H1 | rewrite Tother by lia; exact H2|].
        exists p', w'. split; [reflexivity|]. split; [exact R|].
        cbn [String.eqb Ascii.eqb Bool.eqb xorb].
        rewrite O0, O1, O2.
        destruct (odd_presses "1" rest); cbn [negb xorb];
          rewrite ?negate_involutive; auto.
      * destruct (toggle_relay_ready self 1 v1 w Hready ltac:(lia) H1)
          as (w1 & -> & Hready1 & T1 & Tother).
        destruct (IH printed w1 v0 (negate v1) v2 Hready1)
          as (p' & w' & -> & R & O0 & O1 & O2);
          [rewrite Tother by lia; exact H0 | exact T1
           | rewrite Tother by lia; exact H2|].
        exists p', w'. split; [reflexivity|]. split; [exact R|].
        cbn [String.eqb Ascii.eqb Bool.eqb xorb].
        rewrite O0, O1, O2.
        destruct (odd_presses "2" rest); cbn [negb xorb];
          rewrite ?negate_involutive; auto.
      * destruct (toggle_relay_ready self 2 v2 w Hready ltac:(lia) H2)
          as (w1 & -> & Hready1 & T2 & Tother).
        destruct (IH printed w1 v0 v1 (negate v2) Hready1)
          as (p' & w' & -> & R & O0 & O1 & O2);
          [rewrite Tother by lia; exact H0 | rewrite Tother by lia; exact H1
           | exact T2|].
        exists p', w'. split; [reflexivity|]. split; [exact R|].
        cbn [String.eqb Ascii.eqb Bool.eqb xorb].
        rewrite O0, O1, O2.
        destruct (odd_presses "3" rest); cbn [negb xorb];
          rewrite ?negate_involutive; auto.
      * rewrite !eqb_false by assumption. cbn [xorb].
        apply IH; assumption.
Qed.

Lemma override_parity_witness :
  exists printed' w',
    override (controller 0 4) ["1"; "x"; "3"; "1"; "q"; "2"]%string
      [instructions] live_world
    = (inl tt, printed', w')
    /\ bank_ready (controller 0 4) w'
    /\ output (controller 0 4) 0 w' = Return OFF
    /\ output (controller 0 4) 1 w' = Return OFF
    /\ output (controller 0 4) 2 w' = Return ON.
Proof.
  apply (override_parity (controller 0 4)
           ["1"; "x"; "3"; "1"; "q"; "2"]%string [instructions] live_world
           OFF OFF OFF).
  - apply live_world_ready.
  - reflexivity.
  - reflexivity.
  - reflexivity.
Defined.

(** ** Underscores in tokens *)

Lemma scan_hex_prefix digits : forall prev acc rest,
  digits <> [] -> Forall hex_digit digits ->
  scan_digits prev acc (digits ++ rest)
  = scan_digits false
      (fold_left (fun a c => a * 16 + _PyLong_DigitValue c) digits acc) rest.
Proof.
  induction digits as [|c digits IH]; intros prev acc rest Hne H;
    [contradiction|].
  inversion H as [|? ? Hc Hrest]; subst.
  change ((c :: digits) ++ rest) with (c :: (digits ++ rest)).
  cbn [scan_digits fold_left].
  rewrite (proj1 (hex_digit_plain c Hc)).
  replace (_PyLong_DigitValue c <? 16) with true
    by (symmetry; apply Z.ltb_lt; exact Hc).
  destruct digits as [|c' digits']; [reflexivity|].
  apply IH; [discriminate | exact Hrest].
Qed.

Lemma int16_hex_then digits rest :
  digits <> [] -> Forall hex_digit digits ->
  int16 (b "0x" ++ digits ++ rest) =
    match scan_digits false (hex_value digits) rest with
    | Some (v, rest') =>
        match lstrip rest' with
        | [] => Return (1 * v)
        | _ => Raise ValueError
        end
    | None => Raise ValueError
    end.
Proof.
  intros Hne H. rewrite int16_prefixed.
  destruct digits as [|c digits]; [contradiction|].
  inversion H as [|? ? Hc Hrest]; subst.
  pose proof (proj1 (hex_digit_plain c Hc)) as Hus.
  change ((c :: digits) ++ rest) with (c :: (digits ++ rest)).
  cbv zeta beta iota. rewrite Hus. cbv beta iota. rewrite ?Hus.
  change (c :: (digits ++ rest)) with ((c :: digits) ++ rest).
  rewrite (scan_hex_prefix (c :: digits) false 0 rest Hne H).
  fold (hex_value (c :: digits)).
  destruct (scan_digits false (hex_value (c :: digits)) rest)
    as [[v rest']|] eqn:Hscan; [|reflexivity].
  rewrite bool_decide_eq_false_2; [reflexivity|].
  intros ->. clear -Hscan.
  assert (Hlen : forall s prev acc v0 r0,
            scan_digits prev acc s = Some (v0, r0) ->
            (length r0 <= length s)%nat).
  { induction s as [|x s IHs]; intros prev acc v0 r0; cbn [scan_digits].
    - destruct prev; [discriminate|]. intros [= _ <-]. lia.
    - destruct (is_underscore x).
      + destruct prev; [discriminate|]. intros Hs. apply IHs in Hs.
        cbn [length]. lia.
      + destruct (_PyLong_DigitValue x <? 16).
        * intros Hs. apply IHs in Hs. cbn [length]. lia.
        * destruct prev; [discriminate|]. intros [= _ <-]. lia. }
  apply Hlen in Hscan. rewrite length_app in Hscan. cbn [length] in Hscan. lia.
Qed.

(** X22: [int] takes underscores as digit separators, and so does the
    decoder: a token with one underscore between two groups of hexadecimal
    digits, or one underscore in front, has the value of its digits, while a
    token that ends with an underscore or has two in a row is refused. *)
Theorem underscore_tokens left_digits right_digits :
  left_digits <> [] -> Forall hex_digit left_digits ->
  right_digits <> [] -> Forall hex_digit right_digits ->
  int16 (b "0x" ++ left_digits ++ "_"%char :: right_digits)
    = Return (hex_value (left_digits ++ right_digits))
  /\ int16 (b "0x" ++ "_"%char :: left_digits) = Return (hex_value left_digits)
  /\ int16 (b "0x" ++ left_digits ++ ["_"%char]) = Raise ValueError
  /\ int16 (b "0x" ++ left_digits ++ "_"%char :: "_"%char :: right_digits)
     = Raise ValueError.
Proof.
  intros Hl Fl Hr Fr. repeat split.
  - rewrite (int16_hex_then left_digits _ Hl Fl). cbn [scan_digits].
    change (is_underscore "_") with true. cbv beta iota.
    rewrite <- (app_nil_r right_digits) at 1.
    rewrite (scan_hex_prefix right_digits true _ [] Hr Fr).
    cbn [scan_digits lstrip]. unfold hex_value. rewrite fold_left_app.
    f_equal. apply Z.mul_1_l.
  - rewrite int16_prefixed. cbv zeta beta iota.
    change (is_underscore "_") with true. cbv beta iota.
    destruct left_digits as [|c digits]; [contradiction|].
    inversion Fl as [|? ? Hc _]; subst.
    rewrite (proj1 (hex_digit_plain c Hc)).
    rewrite (scan_hex_digits (c :: digits) 0 Fl).
    rewrite bool_decide_eq_false_2 by discriminate.
    cbn [lstrip]. unfold hex_value. f_equal. apply Z.mul_1_l.
  - rewrite (int16_hex_then left_digits _ Hl Fl). reflexivity.
  - rewrite (int16_hex_then left_digits _ Hl Fl). reflexivity.
Qed.

Lemma hex_digit_9 : hex_digit "9".
Proof. vm_compute. reflexivity. Qed.

Lemma underscore_tokens_witness :
  int16 (b "0x" ++ b "9_3") = Return 0x93
  /\ int16 (b "0x" ++ b "_9") = Return 9
  /\ int16 (b "0x" ++ b "9_") = Raise ValueError
  /\ int16 (b "0x" ++ b "9__3") = Raise ValueError.
Proof.
  apply (underscore_tokens (b "9") (b "3")).
  - discriminate.
  - constructor; [exact hex_digit_9 | constructor].
  - discriminate.
  - constructor; [exact hex_digit_3 | constructor].
Defined.

(** ** The rest of a line *)

Lemma split_from_space s1 sp s2 : forall token,
  Py_ISSPACE sp = true ->
  split_from token (s1 ++ sp :: s2) = split_from token s1 ++ split s2.
Proof.
  induction s1 as [|c s1 IH]; intros token Hsp.
  - cbn [app split_from]. rewrite Hsp. destruct token; reflexivity.
  - change ((c :: s1) ++ sp :: s2) with (c :: (s1 ++ sp :: s2)).
    cbn [split_from]. destruct (Py_ISSPACE c).
    + destruct token; rewrite IH by exact Hsp; reflexivity.
    + apply IH. exact Hsp.
Qed.

Lemma midi_hex_app l1 : forall l2,
  MIDIRelayController.midi_hex (l1 ++ l2) =
    match MIDIRelayController.midi_hex l1 with
    | Return f1 =>
        match MIDIRelayController.midi_hex l2 with
        | Return f2 => Return (f1 ++ f2)
        | Raise e => Raise e
        end
    | Raise e => Raise e
    end.
Proof.
  induction l1 as [|t l1 IH]; intros l2.
  - cbn [app]. change (MIDIRelayController.midi_hex []) with (@Return (list Z) []).
    destruct (MIDIRelayController.midi_hex l2); reflexivity.
  - change ((t :: l1) ++ l2) with (t :: (l1 ++ l2)).
    rewrite !midi_hex_cons, IH.
    destruct (int16 (b "0x" ++ t)); [|reflexivity].
    destruct (MIDIRelayController.midi_hex l1); [|reflexivity].
    destruct (MIDIRelayController.midi_hex l2); reflexivity.
Qed.

(** X23: once the buffer holds a status byte and a first data byte, closed
    by whitespace, nothing that follows on the same line can change what
    [_callback] does: for every continuation the call either does nothing
    (the continuation does not decode) or does exactly what it did for the
    two bytes. A second message on a line without a newline in between is
    never acted on. *)
Theorem rest_of_line_repeats self byte_buffer byte_buffer' sp more
  status note data w :
  MIDIRelayController.midi_hex (split (concat byte_buffer))
    = Return (status :: note :: data) ->
  Py_ISSPACE sp = true ->
  concat byte_buffer' = concat byte_buffer ++ sp :: more ->
  MIDIRelayController._callback self byte_buffer' w = (Return tt, w)
  \/ MIDIRelayController._callback self byte_buffer' w
     = MIDIRelayController._callback self byte_buffer w.
Proof.
  intros Hframe Hsp Hcat.
  assert (Hsplit : split (concat byte_buffer')
                   = split (concat byte_buffer) ++ split more).
  { rewrite Hcat. unfold split at 1. apply split_from_space. exact Hsp. }
  destruct (MIDIRelayController.midi_hex (split more)) as [f2|e] eqn:Hmore.
  - right.
    rewrite (callback_decoded self byte_buffer' status (note :: data ++ f2) w)
      by (rewrite Hsplit, midi_hex_app, Hframe, Hmore; reflexivity).
    rewrite (callback_decoded self byte_buffer status (note :: data) w Hframe).
    reflexivity.
  - left. pose proof (midi_hex_raises _ _ Hmore) as ->.
    unfold MIDIRelayController._callback.
    destruct byte_buffer' as [|x l].
    + reflexivity.
    + rewrite Hsplit, midi_hex_app, Hframe, Hmore. reflexivity.
Qed.

Lemma rest_of_line_repeats_witness :
  MIDIRelayController._callback (controller 0 4) (chars "93 3c 7f 93 3e")
    live_world = (Return tt, live_world)
  \/ MIDIRelayController._callback (controller 0 4) (chars "93 3c 7f 93 3e")
       live_world
     = MIDIRelayController._callback (controller 0 4) (chars "93 3c")
         live_world.
Proof.
  apply (rest_of_line_repeats (controller 0 4) (chars "93 3c")
           (chars "93 3c 7f 93 3e") " " (b "7f 93 3e") 0x93 0x3c []
           live_world); reflexivity.
Defined.
